(** * ASR-Server: configuration loading, whisper-cli invocation and the
      transcription endpoint

    A shallow embedding of [src/config.py], [src/transcription.py] and
    [src/server.py], followed by the properties of the specification that
    are settled on it.

    Python strings are sequences of Unicode code points, exceptions are
    values of an error type, and the operating system (files, the
    temporary-file namer, the whisper-cli child process) is explicit state
    threaded through a small state-and-exception monad. *)

From Stdlib Require Import ZArith String Ascii DecimalString.
From stdpp Require Import gmap list.

Local Open Scope N_scope.

(* ===================================================================== *)
(** * Python strings *)
(* ===================================================================== *)

(** A [str] is a sequence of code points. *)
Abbreviation char := N (only parsing).
Abbreviation str := (list N) (only parsing).

(** A literal: the code points of an ASCII string. *)
Definition u (s : string) : str :=
  map N_of_ascii (list_ascii_of_string s).

(** [Py_UNICODE_ISSPACE]: the code points [str.strip()] trims and the
    regular expression class [\s] accepts on [str] patterns (CPython keeps
    one table for both). *)
Definition isspace (c : char) : bool :=
  ((9 <=? c) && (c <=? 13)) || ((28 <=? c) && (c <=? 32))
  || (c =? 133) || (c =? 160) || (c =? 5760)
  || ((8192 <=? c) && (c <=? 8202))
  || (c =? 8232) || (c =? 8233) || (c =? 8239) || (c =? 8287)
  || (c =? 12288).

(** The digits '0' .. '9'. *)
Definition ascii_digit (c : char) : bool := (48 <=? c) && (c <=? 57).

(** [s.lstrip()], [s.rstrip()] and [s.strip()] without argument. *)
Fixpoint lstrip (s : str) : str :=
  match s with
  | c :: s' => if isspace c then lstrip s' else s
  | [] => []
  end.

Definition rstrip (s : str) : str := rev (lstrip (rev s)).

Definition strip (s : str) : str := rstrip (lstrip s).

(** [str(n)] for an [int]. *)
Definition str_of_int (z : Z) : str :=
  u (NilZero.string_of_int (Z.to_int z)).

(* ===================================================================== *)
(** * Regular expressions, as far as [transcription.py] uses them *)
(* ===================================================================== *)

Module re.

(** A member of a character set. *)
Inductive atom :=
| Lit (c : char)            (* an escaped or plain character *)
| Digit                     (* \d *)
| Space.                    (* \s *)

(** A character set [[...]] (a single atom stands for itself) with its
    quantifier. *)
Inductive item :=
| One (a : list atom)       (* a  *)
| Plus (a : list atom)      (* a+ *)
| Star (a : list atom).     (* a* *)

Abbreviation pattern := (list item) (only parsing).

Section Matching.

(** [Py_UNICODE_ISDECIMAL], the table behind [\d]: the characters of
    Unicode category Nd. It belongs to the interpreter, not to the
    repository, and grows with the Unicode version. *)
Variable isdecimal : char -> bool.

Definition accepts1 (a : atom) (c : char) : bool :=
  match a with
  | Lit c' => c =? c'
  | Digit => isdecimal c
  | Space => isspace c
  end.

Definition accepts (a : list atom) (c : char) : bool :=
  existsb (fun a' => accepts1 a' c) a.

(** A greedy repeat followed by the rest of the pattern [k]: take
    characters while they are accepted, then try [k]; when [k] fails
    give the last character back and try again. *)
Fixpoint greedy (ok : char -> bool) (k : str -> option str)
         (s : str) : option str :=
  match s with
  | c :: s' =>
      if ok c then
        match greedy ok k s' with
        | Some r => Some r
        | None => k s
        end
      else k s
  | [] => k []
  end.

(** [match_here p s]: match [p] at the start of [s] the way the
    backtracking engine does; the answer is what follows the match. *)
Fixpoint match_here (p : pattern) (s : str) : option str :=
  match p with
  | [] => Some s
  | One a :: p' =>
      match s with
      | c :: s' => if accepts a c then match_here p' s' else None
      | [] => None
      end
  | Plus a :: p' =>
      match s with
      | c :: s' =>
          if accepts a c then greedy (accepts a) (match_here p') s'
          else None
      | [] => None
      end
  | Star a :: p' => greedy (accepts a) (match_here p') s
  end.

(** The loop of [re.sub(p, '', s)] over a matcher that accepts no empty
    string: scan from the left; where the matcher accepts, drop what it
    accepted and go on behind it, elsewhere keep the character. [n] bounds
    the number of positions visited. *)
Fixpoint sub_from (matcher : str -> option str) (n : nat) (s : str) : str :=
  match n with
  | O => s
  | S n' =>
      match s with
      | [] => []
      | c :: s' =>
          match matcher s with
          | Some r => sub_from matcher n' r
          | None => c :: sub_from matcher n' s'
          end
      end
  end.

(** [re.sub(p, '', s)] *)
Definition sub (p : pattern) (s : str) : str :=
  sub_from (match_here p) (length s) s.

End Matching.

End re.

(* ===================================================================== *)
(** * transcription.py: cleaning the engine's output *)
(* ===================================================================== *)

(** The characters '[', ']', '-', '>', ':' and '.'. *)
Definition LBRACKET : char := 91.
Definition RBRACKET : char := 93.
Definition MINUS : char := 45.
Definition GREATER : char := 62.
Definition COLON : char := 58.
Definition DOT : char := 46.

(** [[\d:\.]] *)
Definition stamp_chars : list re.atom :=
  [re.Digit; re.Lit COLON; re.Lit DOT].

(** [r'\[[\d:\.]+\s*-->\s*[\d:\.]+\]\s*'] *)
Definition TIMESTAMP : list re.item :=
  [ re.One [re.Lit LBRACKET]; re.Plus stamp_chars; re.Star [re.Space];
    re.One [re.Lit MINUS]; re.One [re.Lit MINUS]; re.One [re.Lit GREATER];
    re.Star [re.Space]; re.Plus stamp_chars; re.One [re.Lit RBRACKET];
    re.Star [re.Space] ].

(** The three statements after the exit-status test:
<<
    text = result.stdout.strip()
    text = re.sub(r'\[[\d:\.]+\s*-->\s*[\d:\.]+\]\s*', '', text)
    text = text.strip()
>> *)
Definition clean_output (isdecimal : char -> bool) (stdout : str) : str :=
  strip (re.sub isdecimal TIMESTAMP (strip stdout)).

(* ===================================================================== *)
(** * Python values and exceptions *)
(* ===================================================================== *)

Abbreviation bytes := (list Byte.byte) (only parsing).

(** The scalars a YAML document or a form field holds. A dataclass does
    not check its annotations, so a field holds whichever of them it was
    given. A float is carried by its [repr], which is also its [str]. *)
Inductive value :=
| VNone
| VBool (b : bool)
| VInt (z : Z)
| VFloat (repr : str)
| VStr (s : str).

#[global] Instance value_eq_dec : EqDecision value.
Proof. solve_decision. Defined.

(** Truth value testing, as [if x:] and [x or y] do it. *)
Definition truthy (v : value) : bool :=
  match v with
  | VNone => false
  | VBool b => b
  | VInt z => negb (z =? 0)%Z
  | VFloat r => negb (bool_decide (r = u "0.0") || bool_decide (r = u "-0.0"))
  | VStr s => negb (bool_decide (s = []))
  end.

(** [a or b] *)
Definition py_or (a b : value) : value := if truthy a then a else b.

(** [str(v)] *)
Definition py_str (v : value) : str :=
  match v with
  | VNone => u "None"
  | VBool true => u "True"
  | VBool false => u "False"
  | VInt z => str_of_int z
  | VFloat r => r
  | VStr s => s
  end.

(** Why a [TypeError] was raised. *)
Inductive type_error :=
| NotAMapping                          (* f( **x ) with x not a dict *)
| KeywordsMustBeStrings                (* f( **d ) with a non-str key *)
| UnexpectedKeyword (cls key : str)    (* cls( key=... ), no such field *)
| NotAPathSegment                      (* Path / x with x not a str *)
| BadArgument (index : nat).           (* a non-str in a command line *)

(** The exceptions of the three modules. Those raised by the repository
    carry the message it builds; the others carry what their text is
    built from. *)
Inductive exn :=
| FileNotFoundError (msg : str)
| RuntimeError (msg : str)
| TimeoutExpired (cmd : list str) (timeout : Z)
| TypeError (why : type_error)
| AttributeError (attr : str)
| YAMLError
| ValueError (msg : str)
| OSError (msg : str)
| HTTPException (status_code : Z) (detail : str).

(** The outcome of a call: a value, or a raised exception. *)
Inductive outcome (A : Type) :=
| Ok (a : A)
| Raise (e : exn).
Arguments Ok {A} a.
Arguments Raise {A} e.

(* ===================================================================== *)
(** * config.py *)
(* ===================================================================== *)

Module config.

Record ServerConfig := {
  host : value;                      (* str = "0.0.0.0" *)
  port : value                       (* int = 8005 *)
}.

Record WhisperConfig := {
  model_path : value;                (* str = "models/ggml-base.bin" *)
  language : value;                  (* str = "en" *)
  threads : value                    (* int = 4 *)
}.

Record VADConfig := {
  enabled : value;                   (* bool = True *)
  threshold : value;                 (* float = 0.5 *)
  min_speech_duration_ms : value;    (* int = 250 *)
  min_silence_duration_ms : value    (* int = 700 *)
}.

Record Config := {
  server : ServerConfig;
  whisper : WhisperConfig;
  vad : VADConfig
}.

(** A dict with scalar keys and values, in insertion order. *)
Abbreviation dict := (list (value * value)) (only parsing).

(** [d.get(k)] on the entries of a dict, generic in what is stored. *)
Fixpoint get {A : Type} (k : value) (d : list (value * A)) : option A :=
  match d with
  | [] => None
  | (k', v) :: d' => if decide (k = k') then Some v else get k d'
  end.

(** The generated [__init__] of a dataclass: every field is a keyword
    parameter with a default. *)
Definition field (kw : dict) (name : string) (default : value) : value :=
  match get (VStr (u name)) kw with
  | Some v => v
  | None => default
  end.

Definition is_str (v : value) : bool :=
  match v with VStr _ => true | _ => false end.

(** The first key of [kw] that names no field of the class. *)
Fixpoint unexpected (fields : list string) (kw : dict) : option str :=
  match kw with
  | [] => None
  | (VStr k, _) :: kw' =>
      if existsb (fun f => bool_decide (u f = k)) fields
      then unexpected fields kw'
      else Some k
  | _ :: kw' => unexpected fields kw'
  end.

(** Calling [cls( **kw )]: unpacking wants every key to be a string, and
    binding wants every key to name a parameter. *)
Definition construct {A : Type} (cls : string) (fields : list string)
           (build : dict -> A) (kw : dict) : outcome A :=
  if forallb (fun e => is_str (fst e)) kw then
    match unexpected fields kw with
    | Some k => Raise (TypeError (UnexpectedKeyword (u cls) k))
    | None => Ok (build kw)
    end
  else Raise (TypeError KeywordsMustBeStrings).

Definition ServerConfig_fields : list string := ["host"; "port"]%string.
Definition WhisperConfig_fields : list string :=
  ["model_path"; "language"; "threads"]%string.
Definition VADConfig_fields : list string :=
  ["enabled"; "threshold"; "min_speech_duration_ms";
   "min_silence_duration_ms"]%string.

Definition ServerConfig_init : dict -> outcome ServerConfig :=
  construct "ServerConfig" ServerConfig_fields (fun kw =>
    {| host := field kw "host" (VStr (u "0.0.0.0"));
       port := field kw "port" (VInt 8005) |}).

Definition WhisperConfig_init : dict -> outcome WhisperConfig :=
  construct "WhisperConfig" WhisperConfig_fields (fun kw =>
    {| model_path := field kw "model_path" (VStr (u "models/ggml-base.bin"));
       language := field kw "language" (VStr (u "en"));
       threads := field kw "threads" (VInt 4) |}).

Definition VADConfig_init : dict -> outcome VADConfig :=
  construct "VADConfig" VADConfig_fields (fun kw =>
    {| enabled := field kw "enabled" (VBool true);
       threshold := field kw "threshold" (VFloat (u "0.5"));
       min_speech_duration_ms := field kw "min_speech_duration_ms" (VInt 250);
       min_silence_duration_ms := field kw "min_silence_duration_ms" (VInt 700)
    |}).

(** [Config()] *)
Definition Config_default : Config :=
  {| server := {| host := VStr (u "0.0.0.0"); port := VInt 8005 |};
     whisper := {| model_path := VStr (u "models/ggml-base.bin");
                   language := VStr (u "en"); threads := VInt 4 |};
     vad := {| enabled := VBool true; threshold := VFloat (u "0.5");
               min_speech_duration_ms := VInt 250;
               min_silence_duration_ms := VInt 700 |} |}.

(** What sits under a top-level key of the document. *)
Inductive node :=
| Scalar (v : value)
| Sequence (len : nat)
| Mapping (d : dict).

(** What [yaml.safe_load] returns. *)
Inductive document :=
| DocScalar (v : value)                    (* None for an empty file *)
| DocSequence (len : nat)
| DocMapping (d : list (value * node)).

(** The file at [path]. *)
Inductive source :=
| Missing                                  (* config_path.exists() is False *)
| Malformed (e : exn)                      (* open or safe_load raises e *)
| Loaded (doc : document).

(** [yaml.safe_load(f) or {}] followed by the three [data.get(name, {})]:
    a falsy document counts as the empty mapping; a truthy one that is no
    mapping has no [get]. *)
Definition sections (doc : document)
  : outcome (list (value * node)) :=
  match doc with
  | DocMapping d => Ok d
  | DocScalar v =>
      if truthy v then Raise (AttributeError (u "get")) else Ok []
  | DocSequence n =>
      match n with
      | O => Ok []
      | S _ => Raise (AttributeError (u "get"))
      end
  end.

(** [cls( **data.get(name, {}) )] *)
Definition section {A : Type} (init : dict -> outcome A)
           (data : list (value * node)) (name : string) : outcome A :=
  match get (VStr (u name)) data with
  | None => init []
  | Some (Mapping d) => init d
  | Some (Scalar _) | Some (Sequence _) => Raise (TypeError NotAMapping)
  end.

Definition load_config (src : source) : outcome Config :=
  match src with
  | Missing => Ok Config_default
  | Malformed e => Raise e
  | Loaded doc =>
      match sections doc with
      | Raise e => Raise e
      | Ok data =>
          match section ServerConfig_init data "server" with
          | Raise e => Raise e
          | Ok s =>
              match section WhisperConfig_init data "whisper" with
              | Raise e => Raise e
              | Ok w =>
                  match section VADConfig_init data "vad" with
                  | Raise e => Raise e
                  | Ok v => Ok {| server := s; whisper := w; vad := v |}
                  end
              end
          end
      end
  end.

End config.

(* ===================================================================== *)
(** * The operating system under a call *)
(* ===================================================================== *)

(** The files on disk, by path. *)
Abbreviation disk := (gmap (list N) (list Byte.byte)) (only parsing).

(** What the calls below did to the outside, oldest first. *)
Inductive event :=
| Created (path : str)                       (* a temporary file *)
| Spawned (cmd : list str) (timeout : Z)     (* a child process *)
| Unlinked (path : str).                     (* Path.unlink *)

Record world := {
  files : gmap (list N) (list Byte.byte);
  events : list event
}.

(** How a child process ends when nobody stops it. *)
Inductive ending :=
| Exits (elapsed_ms : N) (returncode : Z) (stdout stderr : str)
| Hangs.

(** The parts of a host that the repository relies on and does not
    contain: the interpreter's decimal table, the namer of temporary
    files, the filesystem's path resolution, and the whisper-cli program,
    which may touch the disk before it ends or is killed. *)
Record Host := {
  isdecimal : char -> bool;
  mktemp : gmap (list N) (list Byte.byte) -> str;
  resolve : gmap (list N) (list Byte.byte) -> str -> str;
  joinpath : str -> str -> str;
  project_root : str;
  launch : list str -> gmap (list N) (list Byte.byte) ->
           outcome (gmap (list N) (list Byte.byte) * ending);
  lib_text : exn -> str
}.

(** A computation: reads and changes the world, and returns or raises. *)
Definition M (A : Type) : Type := world -> world * outcome A.

Definition ret {A} (a : A) : M A := fun w => (w, Ok a).
Definition raise {A} (e : exn) : M A := fun w => (w, Raise e).
Definition bind {A B} (m : M A) (k : A -> M B) : M B :=
  fun w =>
    match m w with
    | (w', Ok a) => k a w'
    | (w', Raise e) => (w', Raise e)
    end.

Notation "'do' x <- m ; k" := (bind m (fun x => k))
  (at level 10, x name, m at level 100, k at level 200,
   format "'[v' 'do'  x  <-  m ; '/' k ']'").

(** [try: body finally: cleanup]: the cleanup runs however the body ends;
    the body's outcome stands unless the cleanup itself raises. *)
Definition try_finally {A} (body : M A) (cleanup : M unit) : M A :=
  fun w =>
    match body w with
    | (w', r) =>
        match cleanup w' with
        | (w'', Ok _) => (w'', r)
        | (w'', Raise e) => (w'', Raise e)
        end
    end.

Definition log (e : event) : M unit :=
  fun w => ({| files := files w; events := events w ++ [e] |}, Ok ()).

(** [with tempfile.NamedTemporaryFile(suffix=..., delete=False) as f:
       f.write(data); name = f.name] *)
Definition NamedTemporaryFile (h : Host) (suffix : str) (data : bytes)
  : M str :=
  fun w =>
    let name := mktemp h (files w) ++ suffix in
    ({| files := <[name := data]> (files w);
        events := events w ++ [Created name] |}, Ok name).

(** [Path(p).unlink(missing_ok=True)] *)
Definition unlink_missing_ok (p : str) : M unit :=
  fun w =>
    ({| files := delete p (files w);
        events := events w ++ [Unlinked p] |}, Ok ()).

(** [Path(p).exists()] *)
Definition exists_ (p : str) (d : gmap (list N) (list Byte.byte)) : bool :=
  bool_decide (is_Some (d !! p)).

(** [subprocess.CompletedProcess] *)
Record CompletedProcess := {
  returncode : Z;
  stdout : str;
  stderr : str
}.

(** The strings of a command line, or the position of the first argument
    that is none. *)
Fixpoint argv (i : nat) (cmd : list value) : nat + list str :=
  match cmd with
  | [] => inr []
  | VStr s :: cmd' =>
      match argv (S i) cmd' with
      | inr l => inr (s :: l)
      | inl j => inl j
      end
  | _ :: _ => inl i
  end.

(** [subprocess.run(cmd, capture_output=True, text=True, timeout=t)]: the
    child is started, and killed when it has not ended after [t] seconds. *)
Definition subprocess_run (h : Host) (cmd : list value) (timeout : Z)
  : M CompletedProcess :=
  match argv 0 cmd with
  | inl i => raise (TypeError (BadArgument i))
  | inr args =>
      fun w =>
        match launch h args (files w) with
        | Raise e => (w, Raise e)
        | Ok (d, e) =>
            let w' := {| files := d;
                         events := events w ++ [Spawned args timeout] |} in
            match e with
            | Exits ms rc out err =>
                if (Z.of_N ms <=? 1000 * timeout)%Z
                then (w', Ok {| returncode := rc; stdout := out;
                                stderr := err |})
                else (w', Raise (TimeoutExpired args timeout))
            | Hangs => (w', Raise (TimeoutExpired args timeout))
            end
        end
  end.

(* ===================================================================== *)
(** * transcription.py *)
(* ===================================================================== *)

Module transcription.

Record TranscriptionResult := {
  text : str;
  language : value;
  duration_ms : Z;
  segments : option (list value)
}.

Record Transcriber := {
  model_path : str;                        (* resolved *)
  config : config.WhisperConfig;
  vad_config : config.VADConfig
}.

(** [Transcriber.__init__] *)
Definition Transcriber_init (h : Host) (model_path : str)
           (whisper_config : config.WhisperConfig)
           (vad_config : config.VADConfig) : M Transcriber :=
  fun w =>
    let p := resolve h (files w) model_path in
    if negb (exists_ p (files w))
    then (w, Raise (FileNotFoundError (u "Whisper model not found: " ++ p)))
    else (w, Ok {| model_path := p; config := whisper_config;
                   vad_config := vad_config |}).

(** The command line that [transcribe] builds. *)
Definition command (self : Transcriber) (language : value)
           (temp_path : str) : list value :=
  let cmd :=
    [ VStr (u "whisper-cli");
      VStr (u "-m"); VStr (model_path self);
      VStr (u "-l"); language;
      VStr (u "-t"); VStr (py_str (config.threads (config self)));
      VStr (u "--no-timestamps");
      VStr (u "-np") ] in
  let cmd :=
    if truthy (config.enabled (vad_config self)) then
      cmd ++ [ VStr (u "--vad");
               VStr (u "-vt");
               VStr (py_str (config.threshold (vad_config self)));
               VStr (u "-vspd");
               VStr (py_str (config.min_speech_duration_ms (vad_config self)));
               VStr (u "-vsd");
               VStr (py_str (config.min_silence_duration_ms (vad_config self))) ]
    else cmd in
  cmd ++ [VStr temp_path].

(** [Transcriber.transcribe] *)
Definition transcribe (h : Host) (self : Transcriber)
           (audio_data : bytes) (language : value)
  : M TranscriptionResult :=
  let language := py_or language (config.language (config self)) in
  do temp_path <- NamedTemporaryFile h (u ".wav") audio_data;
  try_finally
    (do result <- subprocess_run h (command self language temp_path) 60;
     if negb (returncode result =? 0)%Z then
       raise (RuntimeError (u "whisper-cli failed: " ++ stderr result))
     else
       ret {| text := clean_output (isdecimal h) (stdout result);
              language := language;
              duration_ms := 0;
              segments := None |})
    (unlink_missing_ok temp_path).

(** [with open(file_path, "rb") as f: audio_data = f.read()]: the bytes of
    the file, or the [FileNotFoundError] of a missing one, whose message
    the library words from the file name. *)
Definition read_file (h : Host) (file_path : str) : M bytes :=
  fun w =>
    match files w !! file_path with
    | Some data => (w, Ok data)
    | None =>
        (w, Raise (FileNotFoundError
                     (lib_text h (FileNotFoundError file_path))))
    end.

(** [Transcriber.transcribe_file] *)
Definition transcribe_file (h : Host) (self : Transcriber)
           (file_path : str) (language : value) : M TranscriptionResult :=
  do audio_data <- read_file h file_path;
  transcribe h self audio_data language.

End transcription.

(* ===================================================================== *)
(** * server.py *)
(* ===================================================================== *)

Module server.

(** The module's two globals; [None] until [lifespan] has set them. *)
Record globals := {
  transcriber : option transcription.Transcriber;
  config : option config.Config
}.

Definition initial : globals := {| transcriber := None; config := None |}.

(** [str(e)] *)
Definition exn_str (h : Host) (e : exn) : str :=
  match e with
  | FileNotFoundError msg => msg
  | RuntimeError msg => msg
  | OSError msg => msg
  | _ => lib_text h e
  end.

(** The part of [lifespan] before [yield]. [src] is what [load_config()]
    finds at its default path. The globals are returned as they stand
    when the function ends or raises; when it raises the application
    does not start. *)
Definition lifespan (h : Host) (src : config.source) (g : globals)
  : world -> world * (globals * outcome unit) :=
  fun w =>
    match config.load_config src with
    | Raise e => (w, (g, Raise e))
    | Ok cfg =>
        let g := {| transcriber := transcriber g; config := Some cfg |} in
        match config.model_path (config.whisper cfg) with
        | VStr p =>
            let model_path := joinpath h (project_root h) p in
            match transcription.Transcriber_init h model_path
                    (config.whisper cfg) (config.vad cfg) w with
            | (w', Ok t) =>
                (w', ({| transcriber := Some t; config := config g |}, Ok ()))
            | (w', Raise e) => (w', (g, Raise e))
            end
        | _ => (w, (g, Raise (TypeError NotAPathSegment)))
        end
    end.

(** The multipart form of a request to the endpoint. *)
Record form := {
  file : bytes;
  language : value                         (* Form(default=None) *)
}.

(** What the handler answers: a status and the JSON member it sends,
    [text] on success and [detail] on failure. *)
Record response := {
  status_code : Z;
  text : option str;
  detail : option str
}.

(** [POST /v1/audio/transcriptions], up to the framework turning a
    raised [HTTPException] into a response. *)
Definition transcribe (h : Host) (g : globals) (req : form) : M str :=
  match transcriber g with
  | None => raise (HTTPException 503 (u "Model not loaded"))
  | Some t =>
      let audio_data := file req in
      if (length audio_data =? 0)%nat then
        raise (HTTPException 400 (u "Empty audio file"))
      else
        fun w =>
          match transcription.transcribe h t audio_data (language req) w with
          | (w', Ok result) => (w', Ok (transcription.text result))
          | (w', Raise (FileNotFoundError m)) =>
              (w', Raise (HTTPException 500 (exn_str h (FileNotFoundError m))))
          | (w', Raise (RuntimeError m)) =>
              (w', Raise (HTTPException 500 (exn_str h (RuntimeError m))))
          | (w', Raise e) =>
              (w', Raise (HTTPException 500
                            (u "Transcription failed: " ++ exn_str h e)))
          end
  end.

(** The framework's side: the handler's value is sent with status 200,
    an [HTTPException] with its own status; anything else would be an
    unhandled error. *)
Definition respond (r : outcome str) : option response :=
  match r with
  | Ok t => Some {| status_code := 200; text := Some t; detail := None |}
  | Raise (HTTPException c d) =>
      Some {| status_code := c; text := None; detail := Some d |}
  | Raise _ => None
  end.

(** What [GET /health] answers. *)
Record health_report := {
  status : str;
  model_loaded : bool;
  vad_enabled : value
}.

(** [health]: an object of a dataclass is true, so
    [config.vad.enabled if config else False] asks whether the global is
    set. *)
Definition health (g : globals) : health_report :=
  {| status := u "healthy";
     model_loaded :=
       match transcriber g with
       | Some _ => true
       | None => false
       end;
     vad_enabled :=
       match config g with
       | Some c => config.enabled (config.vad c)
       | None => VBool false
       end |}.

End server.

(* ===================================================================== *)
(** * Test doubles *)
(* ===================================================================== *)

(** A host whose whisper-cli does as [child] says. Temporary files get one
    fixed stem, paths resolve to themselves. *)
Definition fake_host
  (child : list str -> gmap (list N) (list Byte.byte) ->
           outcome (gmap (list N) (list Byte.byte) * ending)) : Host :=
  {| isdecimal := ascii_digit;
     mktemp := fun _ => u "/tmp/tmpk3v9x2";
     resolve := fun _ p => p;
     joinpath := fun a b => a ++ u "/" ++ b;
     project_root := u "/srv/asr";
     launch := child;
     lib_text := fun _ => u "error" |}.

(** A child that leaves the disk alone and ends as [e]. *)
Definition ends_with (e : ending)
  : list str -> gmap (list N) (list Byte.byte) ->
    outcome (gmap (list N) (list Byte.byte) * ending) :=
  fun _ d => Ok (d, e).

(** A child that removes its input file (its last argument) and then ends
    as [e]. *)
Definition removes_input (e : ending)
  : list str -> gmap (list N) (list Byte.byte) ->
    outcome (gmap (list N) (list Byte.byte) * ending) :=
  fun args d => Ok (delete (List.last args []) d, e).

(** A program that cannot be started. *)
Definition not_installed
  : list str -> gmap (list N) (list Byte.byte) ->
    outcome (gmap (list N) (list Byte.byte) * ending) :=
  fun _ _ => Raise (FileNotFoundError (u "whisper-cli")).

Definition model_file : str := u "/srv/asr/models/ggml-base.bin".

(** A disk holding the model and nothing else, with an empty history. *)
Definition fresh_world : world :=
  {| files := {[ model_file := [] ]}; events := [] |}.

(** A transcriber over the default configuration. *)
Definition default_transcriber : transcription.Transcriber :=
  {| transcription.model_path := model_file;
     transcription.config := config.whisper config.Config_default;
     transcription.vad_config := config.vad config.Config_default |}.

(** The same with voice-activity detection switched off. *)
Definition plain_transcriber : transcription.Transcriber :=
  {| transcription.model_path := model_file;
     transcription.config := config.whisper config.Config_default;
     transcription.vad_config :=
       {| config.enabled := VBool false;
          config.threshold := VFloat (u "0.5");
          config.min_speech_duration_ms := VInt 250;
          config.min_silence_duration_ms := VInt 700 |} |}.

Definition some_audio : list Byte.byte := [Byte.x52; Byte.x49; Byte.x46; Byte.x46].

(** The temporary file of a call on a fake host. *)
Definition fake_temp : str := u "/tmp/tmpk3v9x2.wav".

(** The command line of [default_transcriber] for English. *)
Definition default_command_line : list str :=
  [ u "whisper-cli"; u "-m"; model_file; u "-l"; u "en"; u "-t"; u "4";
    u "--no-timestamps"; u "-np";
    u "--vad"; u "-vt"; u "0.5"; u "-vspd"; u "250"; u "-vsd"; u "700";
    fake_temp ].

(** The command line of [plain_transcriber] for German. *)
Definition plain_command_line : list str :=
  [ u "whisper-cli"; u "-m"; model_file; u "-l"; u "de"; u "-t"; u "4";
    u "--no-timestamps"; u "-np"; fake_temp ].

(** An engine output with time stamps left in it. *)
Definition stamped_output : str :=
  u " [00:00:00.000 --> 00:00:02.500]  Hello   world [00:00:02.500 --> 00:00:04.000] again  ".

(** A time stamp between two words. *)
Definition stamp_between_words : str :=
  u "a [00:00:01.000 --> 00:00:03.500] b".

(** Brackets that hold no time of day. *)
Definition loose_brackets : str := u "see [1-->2] x".

(** A stamp inside the brackets of another. *)
Definition nested_stamps : str := u "[1 [2-->3]-->4]".

(** Two stamped lines as the engine prints them. *)
Definition two_lines : list (list N * list N) :=
  [ (u "[00:00:00.000 --> 00:00:02.500]", u "   Hello, world.
");
    (u "[00:00:02.500 --> 00:00:04.000]", u "   How are you?") ].

(** A configuration file with a section of its own beside an empty one. *)
Definition other_keys_file : config.document :=
  config.DocMapping
    [ (VStr (u "logging"), config.Mapping [(VStr (u "level"), VInt 1)]);
      (VStr (u "server"), config.Mapping []) ].

(** A configuration file whose [vad] section is left empty. *)
Definition null_section_file : list (value * config.node) :=
  [ (VStr (u "vad"), config.Scalar VNone) ].

(** A transcriber whose configured language is unset. *)
Definition unset_language_transcriber : transcription.Transcriber :=
  {| transcription.model_path := model_file;
     transcription.config :=
       {| config.model_path := VStr (u "models/ggml-base.bin");
          config.language := VNone;
          config.threads := VInt 4 |};
     transcription.vad_config := config.vad config.Config_default |}.

(** The globals after a start-up over the default configuration. *)
Definition started : server.globals :=
  {| server.transcriber := Some default_transcriber;
     server.config := Some config.Config_default |}.

(** An upload of [some_audio] without a language. *)
Definition some_upload : server.form :=
  {| server.file := some_audio; server.language := VNone |}.

(** A configuration file that sets a language and switches the
    voice-activity detection off. *)
Definition partial_file : config.source :=
  config.Loaded (config.DocMapping
    [ (VStr (u "whisper"), config.Mapping [(VStr (u "language"), VStr (u "de"))]);
      (VStr (u "vad"), config.Mapping [(VStr (u "enabled"), VBool false)]) ]).

(** A configuration file with a misspelt key. *)
Definition misspelt_file : list (value * config.node) :=
  [ (VStr (u "server"), config.Mapping [(VStr (u "prot"), VInt 9000)]) ].

(* ===================================================================== *)
(** * Vocabulary of the specification *)
(* ===================================================================== *)

(** The path of the temporary file a call made in world [w] creates. *)
Definition temp_path (h : Host) (w : world) : str :=
  mktemp h (files w) ++ u ".wav".

(** An optional language argument as the value the caller passes. *)
Definition optional (o : option str) : value :=
  match o with
  | Some s => VStr s
  | None => VNone
  end.

(** The effective language in the specification's words: the override
    when it is provided and non-empty, otherwise the configured default. *)
Definition effective_language (override : option str) (default : value)
  : value :=
  match override with
  | Some (c :: s) => VStr (c :: s)
  | _ => default
  end.




(** [s] occurs in [t] as it is. *)
Definition contains (t s : str) : Prop := exists a b, t = a ++ s ++ b.

(** The child is still running when [seconds] have passed. *)
Definition overruns (e : ending) (seconds : Z) : Prop :=
  match e with
  | Exits ms _ _ _ => (1000 * seconds < Z.of_N ms)%Z
  | Hangs => True
  end.

(** What is known of the interpreter's decimal table: below 128 it holds
    the digits '0' .. '9' and nothing else, and no decimal is a space. *)
Definition decimal_table (isdecimal : char -> bool) : Prop :=
  (forall c, c < 128 -> isdecimal c = ascii_digit c)
  /\ (forall c, isdecimal c = true -> isspace c = false).

(** A character of a time stamp: a decimal, a colon or a dot. *)
Definition stamp_char (isdecimal : char -> bool) (c : char) : bool :=
  isdecimal c || (c =? COLON) || (c =? DOT).

(** What the cleaning takes for time-stamp markup: a bracketed pair of
    runs of stamp characters around an arrow, with any white space around
    the arrow and behind the closing bracket. *)
Inductive markup (isdecimal : char -> bool) : str -> Prop :=
| markup_intro d1 w1 w2 d2 w3 :
    d1 <> [] -> d2 <> [] ->
    Forall (fun c => stamp_char isdecimal c = true) d1 ->
    Forall (fun c => isspace c = true) w1 ->
    Forall (fun c => isspace c = true) w2 ->
    Forall (fun c => stamp_char isdecimal c = true) d2 ->
    Forall (fun c => isspace c = true) w3 ->
    markup isdecimal
      ([LBRACKET] ++ d1 ++ w1 ++ [MINUS; MINUS; GREATER] ++ w2 ++ d2
       ++ [RBRACKET] ++ w3).

(** [s] begins with a character that [ok] accepts. *)
Definition starts_with (ok : char -> bool) (s : str) : Prop :=
  match s with
  | c :: _ => ok c = true
  | [] => False
  end.

(** [removes_markup s out]: [out] is [s] without its markup, read from
    the left: where markup starts it goes with all the white space behind
    it, and a character where none starts stays. *)
Inductive removes_markup (isdecimal : char -> bool) : str -> str -> Prop :=
| removes_nil : removes_markup isdecimal [] []
| removes_drop m rest out :
    markup isdecimal m ->
    ~ starts_with isspace rest ->
    removes_markup isdecimal rest out ->
    removes_markup isdecimal (m ++ rest) out
| removes_keep c s out :
    (forall m rest, markup isdecimal m -> c :: s <> m ++ rest) ->
    removes_markup isdecimal s out ->
    removes_markup isdecimal (c :: s) (c :: out).

(** A string read character by character against a list of tests. *)
Fixpoint expect (tests : list (char -> bool)) (s : str) : option str :=
  match tests with
  | [] => Some s
  | t :: tests' =>
      match s with
      | c :: s' => if t c then expect tests' s' else None
      | [] => None
      end
  end.

(** The form hh:mm:ss.mmm. *)
Definition clock (isdecimal : char -> bool) : list (char -> bool) :=
  [ isdecimal; isdecimal; N.eqb COLON; isdecimal; isdecimal; N.eqb COLON;
    isdecimal; isdecimal; N.eqb DOT; isdecimal; isdecimal; isdecimal ].

(** The form [[hh:mm:ss.mmm --> hh:mm:ss.mmm]] of the specification. *)
Definition exact_stamp (isdecimal : char -> bool) : list (char -> bool) :=
  [N.eqb LBRACKET] ++ clock isdecimal
  ++ [N.eqb 32; N.eqb MINUS; N.eqb MINUS; N.eqb GREATER; N.eqb 32]
  ++ clock isdecimal ++ [N.eqb RBRACKET].

(** The returned text in the specification's words: the output trimmed,
    every time stamp of the exact form taken out and nothing else, and
    trimmed again. *)
Definition claimed_output (isdecimal : char -> bool) (stdout : str) : str :=
  strip (re.sub_from (expect (exact_stamp isdecimal))
           (length (strip stdout)) (strip stdout)).

(** The value a source states for [key] of [section], if it states one. *)
Definition explicit (src : config.source) (section key : string)
  : option value :=
  match src with
  | config.Loaded (config.DocMapping d) =>
      match config.get (VStr (u section)) d with
      | Some (config.Mapping kw) => config.get (VStr (u key)) kw
      | _ => None
      end
  | _ => None
  end.

(** The explicit value, or else the documented default. *)
Definition explicit_or (src : config.source) (section key : string)
           (default : value) : value :=
  match explicit src section key with
  | Some v => v
  | None => default
  end.

(** Every key of [kw] names one of [fields]. *)
Definition recognized (fields : list string) (kw : list (value * value))
  : Prop :=
  forall k v, (k, v) ∈ kw -> exists f, f ∈ fields /\ k = VStr (u f).

(** The section [name] of [d] is absent, or a mapping of recognized
    keys. *)
Definition valid_section (d : list (value * config.node)) (name : string)
           (fields : list string) : Prop :=
  match config.get (VStr (u name)) d with
  | None => True
  | Some (config.Mapping kw) => recognized fields kw
  | Some _ => False
  end.

(** The valid configuration sources: no file, an empty file, or a file
    with any of the three sections, each stating any of its fields. *)
Inductive valid_source : config.source -> Prop :=
| valid_missing : valid_source config.Missing
| valid_empty : valid_source (config.Loaded (config.DocScalar VNone))
| valid_mapping d :
    valid_section d "server" config.ServerConfig_fields ->
    valid_section d "whisper" config.WhisperConfig_fields ->
    valid_section d "vad" config.VADConfig_fields ->
    valid_source (config.Loaded (config.DocMapping d)).

(** The sections of the configuration and the fields of each. *)
Definition section_classes : list (string * list string) :=
  [ ("server"%string, config.ServerConfig_fields);
    ("whisper"%string, config.WhisperConfig_fields);
    ("vad"%string, config.VADConfig_fields) ].

(** A document that is taken for the empty mapping, or a mapping in
    which each of the three sections is absent or empty. *)
Definition states_nothing (doc : config.document) : Prop :=
  match doc with
  | config.DocScalar v => truthy v = false
  | config.DocSequence n => n = O
  | config.DocMapping d =>
      Forall (fun name : string =>
                config.get (VStr (u name)) d = None
                \/ config.get (VStr (u name)) d = Some (config.Mapping []))
             ["server"; "whisper"; "vad"]%string
  end.

(** A document that is true and no mapping. *)
Definition truthy_non_mapping (doc : config.document) : Prop :=
  match doc with
  | config.DocScalar v => truthy v = true
  | config.DocSequence n => n <> O
  | config.DocMapping _ => False
  end.

(** The sources [load_config] returns from. *)
Definition loadable (src : config.source) : Prop :=
  match src with
  | config.Missing => True
  | config.Malformed _ => False
  | config.Loaded (config.DocScalar v) => truthy v = false
  | config.Loaded (config.DocSequence n) => n = O
  | config.Loaded (config.DocMapping d) =>
      valid_section d "server" config.ServerConfig_fields
      /\ valid_section d "whisper" config.WhisperConfig_fields
      /\ valid_section d "vad" config.VADConfig_fields
  end.

(** Stamped segments one after the other, as the engine prints them: each
    is markup followed by its text. *)
Definition stamped (segments : list (list N * list N)) : str :=
  concat (map (fun seg => fst seg ++ snd seg) segments).

(** The texts of the segments, each without the white space it begins
    with. *)
Definition texts (segments : list (list N * list N)) : str :=
  concat (map (fun seg => lstrip (snd seg)) segments).

(** The world once a call made in [w] has written its temporary file. *)
Definition written (h : Host) (audio_data : list Byte.byte) (w : world)
  : world :=
  {| files := <[temp_path h w := audio_data]> (files w);
     events := events w ++ [Created (temp_path h w)] |}.

(** What the body of the [try] turns a finished child into. *)
Definition verdict (h : Host) (language : value) (p : CompletedProcess)
  : outcome transcription.TranscriptionResult :=
  if negb (returncode p =? 0)%Z
  then Raise (RuntimeError (u "whisper-cli failed: " ++ stderr p))
  else Ok {| transcription.text := clean_output (isdecimal h) (stdout p);
             transcription.language := language;
             transcription.duration_ms := 0;
             transcription.segments := None |}.

(* ===================================================================== *)
(** * Trimming *)
(* ===================================================================== *)

(** [lstrip] takes the white space a string begins with, and only that. *)
Lemma lstrip_spec s :
  exists ws, s = ws ++ lstrip s
             /\ Forall (fun c => isspace c = true) ws
             /\ ~ starts_with isspace (lstrip s).
Proof.
  induction s as [| c s (ws & Heq & Hws & Hrest)]; simpl.
  - exists []. auto.
  - destruct (isspace c) eqn:E.
    + exists (c :: ws). split; [simpl; f_equal; exact Heq |].
      split; [constructor; assumption | exact Hrest].
    + exists []. split; [reflexivity |]. split; [constructor |].
      simpl. congruence.
Qed.

(** [strip] takes the white space at both ends, and only that. *)
Lemma strip_spec s :
  exists a b, s = a ++ strip s ++ b
              /\ Forall (fun c => isspace c = true) a
              /\ Forall (fun c => isspace c = true) b
              /\ ~ starts_with isspace (strip s)
              /\ ~ starts_with isspace (rev (strip s)).
Proof.
  destruct (lstrip_spec s) as (a & Ha & Hsa & Hla).
  destruct (lstrip_spec (rev (lstrip s))) as (b & Hb & Hsb & Hlb).
  assert (Ht : lstrip s = strip s ++ rev b).
  { unfold strip, rstrip. rewrite <- rev_app_distr, <- Hb.
    symmetry. apply rev_involutive. }
  exists a, (rev b). repeat split.
  - rewrite <- Ht. exact Ha.
  - exact Hsa.
  - apply Forall_rev, Hsb.
  - rewrite Ht in Hla. destruct (strip s); [intros [] | exact Hla].
  - unfold strip, rstrip. rewrite rev_involutive. exact Hlb.
Qed.

(* ===================================================================== *)
(** * The matcher *)
(* ===================================================================== *)

Section Greedy.

Variable ok : N -> bool.
Variable k : list N -> option (list N).

(** Where a greedy repeat succeeds, it took a run of accepted characters
    and the rest of the pattern matched behind the run. *)
Lemma greedy_sound s : forall r,
  re.greedy ok k s = Some r ->
  exists a b, s = a ++ b /\ Forall (fun c => ok c = true) a /\ k b = Some r.
Proof.
  induction s as [| c s IH]; intros r H; simpl in H.
  - exists [], []. auto.
  - destruct (ok c) eqn:Hc.
    + destruct (re.greedy ok k s) as [r' |] eqn:Hg.
      * injection H as <-. destruct (IH r' eq_refl) as (a & b & -> & Ha & Hk).
        exists (c :: a), b. auto.
      * exists [], (c :: s). auto.
    + exists [], (c :: s). auto.
Qed.

(** When the run cannot be longer and the rest matches behind it, that is
    the match a greedy repeat finds. *)
Lemma greedy_exact a b r :
  Forall (fun c => ok c = true) a ->
  ~ starts_with ok b ->
  k b = Some r ->
  re.greedy ok k (a ++ b) = Some r.
Proof.
  intros Ha Hb Hk. induction Ha as [| c a Hc Ha IH]; simpl.
  - destruct b as [| c b]; simpl; [exact Hk |].
    simpl in Hb. destruct (ok c); [contradiction Hb; reflexivity | exact Hk].
  - rewrite Hc, IH. reflexivity.
Qed.

End Greedy.

(** A repeat that ends the pattern takes the whole run. *)
Lemma greedy_last ok s : forall r,
  re.greedy ok Some s = Some r ->
  exists a, s = a ++ r /\ Forall (fun c => ok c = true) a /\ ~ starts_with ok r.
Proof.
  induction s as [| c s IH]; intros r H; simpl in H.
  - injection H as <-. exists []. auto.
  - destruct (ok c) eqn:Hc.
    + destruct (re.greedy ok Some s) as [r' |] eqn:Hg.
      * injection H as <-. destruct (IH r' eq_refl) as (a & -> & Ha & Hr).
        exists (c :: a). auto.
      * injection H as <-. exists []. simpl.
        destruct s; simpl in Hg; [discriminate |].
        destruct (ok n); [destruct (re.greedy ok Some s) |]; discriminate.
    + injection H as <-. exists []. simpl. rewrite Hc. auto.
Qed.

Section Items.

Variable isdecimal : N -> bool.

Local Abbreviation match_here := (re.match_here isdecimal).
Local Abbreviation accepts := (re.accepts isdecimal).

Lemma match_One a p s r :
  match_here (re.One a :: p) s = Some r ->
  exists c s', s = c :: s' /\ accepts a c = true /\ match_here p s' = Some r.
Proof.
  simpl. destruct s as [| c s']; [discriminate |].
  destruct (accepts a c) eqn:E; [eauto | discriminate].
Qed.

Lemma match_Plus a p s r :
  match_here (re.Plus a :: p) s = Some r ->
  exists x b, s = x ++ b /\ x <> []
              /\ Forall (fun c => accepts a c = true) x
              /\ match_here p b = Some r.
Proof.
  simpl. destruct s as [| c s']; [discriminate |].
  destruct (accepts a c) eqn:E; [| discriminate].
  intros H. apply greedy_sound in H as (x & b & -> & Hx & Hb).
  exists (c :: x), b. repeat split; auto; discriminate.
Qed.

Lemma match_Star a p s r :
  match_here (re.Star a :: p) s = Some r ->
  exists x b, s = x ++ b
              /\ Forall (fun c => accepts a c = true) x
              /\ match_here p b = Some r.
Proof. simpl. apply greedy_sound. Qed.

Lemma match_Star_last a s r :
  match_here [re.Star a] s = Some r ->
  exists x, s = x ++ r
            /\ Forall (fun c => accepts a c = true) x
            /\ ~ starts_with (accepts a) r.
Proof. simpl. apply greedy_last. Qed.

Lemma match_One_intro a p c s r :
  accepts a c = true ->
  match_here p s = Some r ->
  match_here (re.One a :: p) (c :: s) = Some r.
Proof. intros Hc Hp. simpl. rewrite Hc. exact Hp. Qed.

Lemma match_Plus_intro a p x b r :
  x <> [] ->
  Forall (fun c => accepts a c = true) x ->
  ~ starts_with (accepts a) b ->
  match_here p b = Some r ->
  match_here (re.Plus a :: p) (x ++ b) = Some r.
Proof.
  intros Hne Hx Hb Hp. destruct x as [| c x]; [contradiction |].
  inversion Hx as [| ? ? Hc Hx']; subst. simpl. rewrite Hc.
  apply greedy_exact; assumption.
Qed.

Lemma match_Star_intro a p x b r :
  Forall (fun c => accepts a c = true) x ->
  ~ starts_with (accepts a) b ->
  match_here p b = Some r ->
  match_here (re.Star a :: p) (x ++ b) = Some r.
Proof. intros Hx Hb Hp. simpl. apply greedy_exact; assumption. Qed.

Lemma accepts_Lit x c : accepts [re.Lit x] c = true <-> c = x.
Proof.
  unfold re.accepts. simpl. rewrite orb_false_r. apply N.eqb_eq.
Qed.

Lemma accepts_Space c : accepts [re.Space] c = isspace c.
Proof. unfold re.accepts. simpl. apply orb_false_r. Qed.

Lemma accepts_stamp_chars c : accepts stamp_chars c = stamp_char isdecimal c.
Proof.
  unfold re.accepts, stamp_char. simpl. rewrite orb_false_r, orb_assoc.
  reflexivity.
Qed.

Lemma Forall_accepts_Space w :
  Forall (fun c => accepts [re.Space] c = true) w
  <-> Forall (fun c => isspace c = true) w.
Proof. apply Forall_iff. intros c. rewrite accepts_Space. reflexivity. Qed.

Lemma Forall_accepts_stamp d :
  Forall (fun c => accepts stamp_chars c = true) d
  <-> Forall (fun c => stamp_char isdecimal c = true) d.
Proof. apply Forall_iff. intros c. rewrite accepts_stamp_chars. reflexivity. Qed.

(** Where the pattern matches, markup stands, with no white space left
    behind it. *)
Lemma TIMESTAMP_sound s r :
  match_here TIMESTAMP s = Some r ->
  exists m, markup isdecimal m /\ s = m ++ r /\ ~ starts_with isspace r.
Proof.
  unfold TIMESTAMP. intros H.
  apply match_One in H as (c0 & s0 & -> & Hc0 & H). apply accepts_Lit in Hc0 as ->.
  apply match_Plus in H as (d1 & s1 & -> & Hd1 & Hf1 & H).
  apply match_Star in H as (w1 & s2 & -> & Hw1 & H).
  apply match_One in H as (c1 & s3 & -> & Hc1 & H). apply accepts_Lit in Hc1 as ->.
  apply match_One in H as (c2 & s4 & -> & Hc2 & H). apply accepts_Lit in Hc2 as ->.
  apply match_One in H as (c3 & s5 & -> & Hc3 & H). apply accepts_Lit in Hc3 as ->.
  apply match_Star in H as (w2 & s6 & -> & Hw2 & H).
  apply match_Plus in H as (d2 & s7 & -> & Hd2 & Hf2 & H).
  apply match_One in H as (c4 & s8 & -> & Hc4 & H). apply accepts_Lit in Hc4 as ->.
  apply match_Star_last in H as (w3 & -> & Hw3 & Hr).
  exists ([LBRACKET] ++ d1 ++ w1 ++ [MINUS; MINUS; GREATER] ++ w2 ++ d2
          ++ [RBRACKET] ++ w3).
  split; [| split].
  - constructor; try assumption;
      first [apply Forall_accepts_stamp | apply Forall_accepts_Space]; assumption.
  - simpl. rewrite <- !app_assoc. simpl. rewrite <- !app_assoc. reflexivity.
  - intros Hs. apply Hr. destruct r as [| c r]; [exact Hs |].
    unfold starts_with in *. rewrite accepts_Space. exact Hs.
Qed.

End Items.

Section Scan.

Variable matcher : list N -> option (list N).
Hypothesis matcher_shrinks :
  forall s r, matcher s = Some r -> (length r < length s)%nat.

(** The bound of the loop does not matter once it covers the string. *)
Lemma sub_from_enough n : forall n' s,
  (length s <= n)%nat -> (length s <= n')%nat ->
  re.sub_from matcher n s = re.sub_from matcher n' s.
Proof.
  induction n as [| n IH]; intros n' s Hn Hn'.
  - destruct s; [| simpl in Hn; lia]. destruct n'; reflexivity.
  - destruct n' as [| n'].
    + destruct s; [reflexivity | simpl in Hn'; lia].
    + simpl. destruct s as [| c s]; [reflexivity |].
      destruct (matcher (c :: s)) as [r |] eqn:E.
      * apply matcher_shrinks in E. simpl length in *. apply IH; lia.
      * f_equal. simpl length in *. apply IH; lia.
Qed.

(** One step of the loop. *)
Lemma sub_from_cons c s :
  re.sub_from matcher (length (c :: s)) (c :: s) =
  match matcher (c :: s) with
  | Some r => re.sub_from matcher (length r) r
  | None => c :: re.sub_from matcher (length s) s
  end.
Proof.
  simpl. destruct (matcher (c :: s)) as [r |] eqn:E; [| reflexivity].
  apply matcher_shrinks in E. simpl in E. apply sub_from_enough; lia.
Qed.

End Scan.

Section Markup.

Variable isdecimal : N -> bool.
Hypothesis table : decimal_table isdecimal.

Local Abbreviation match_here := (re.match_here isdecimal).
Local Abbreviation accepts := (re.accepts isdecimal).

Lemma stamp_char_not_space c : stamp_char isdecimal c = true -> isspace c = false.
Proof.
  unfold stamp_char. intros H.
  apply orb_true_iff in H as [H | H]; [apply orb_true_iff in H as [H | H] |].
  - apply table, H.
  - apply N.eqb_eq in H as ->. reflexivity.
  - apply N.eqb_eq in H as ->. reflexivity.
Qed.

Lemma space_not_stamp_char c : isspace c = true -> stamp_char isdecimal c = false.
Proof.
  intros H. destruct (stamp_char isdecimal c) eqn:E; [| reflexivity].
  apply stamp_char_not_space in E. congruence.
Qed.

Lemma ascii_not_stamp_char c :
  c < 128 -> ascii_digit c = false -> c <> COLON -> c <> DOT ->
  stamp_char isdecimal c = false.
Proof.
  intros Hc Hd H1 H2. unfold stamp_char.
  rewrite (proj1 table c Hc), Hd.
  apply N.eqb_neq in H1, H2. rewrite H1, H2. reflexivity.
Qed.

(** Markup followed by no white space is what the pattern matches, and
    all of what it matches. *)
Lemma TIMESTAMP_exact m r :
  markup isdecimal m -> ~ starts_with isspace r ->
  match_here TIMESTAMP (m ++ r) = Some r.
Proof.
  intros [d1 w1 w2 d2 w3 Hd1 Hd2 Hf1 Hw1 Hw2 Hf2 Hw3] Hr.
  unfold TIMESTAMP. rewrite <- !app_assoc. simpl app.
  apply match_One_intro; [apply accepts_Lit; reflexivity |].
  apply match_Plus_intro; [exact Hd1 | apply Forall_accepts_stamp, Hf1 | |].
  { destruct Hw1 as [| c w1 Hc _]; simpl app; unfold starts_with;
      rewrite accepts_stamp_chars.
    - rewrite ascii_not_stamp_char by (vm_compute; congruence). discriminate.
    - rewrite (space_not_stamp_char _ Hc). discriminate. }
  apply match_Star_intro; [apply Forall_accepts_Space, Hw1 | |].
  { unfold starts_with. rewrite accepts_Space. discriminate. }
  do 3 (apply match_One_intro; [apply accepts_Lit; reflexivity |]).
  apply match_Star_intro; [apply Forall_accepts_Space, Hw2 | |].
  { destruct Hf2 as [| c d2 Hc _]; [contradiction |].
    simpl app. unfold starts_with. rewrite accepts_Space.
    rewrite (stamp_char_not_space _ Hc). discriminate. }
  apply match_Plus_intro; [exact Hd2 | apply Forall_accepts_stamp, Hf2 | |].
  { unfold starts_with. rewrite accepts_stamp_chars.
    rewrite ascii_not_stamp_char by (vm_compute; congruence). discriminate. }
  apply match_One_intro; [apply accepts_Lit; reflexivity |].
  apply match_Star_intro; [apply Forall_accepts_Space, Hw3 | | reflexivity].
  destruct r as [| c r]; [exact Hr |].
  unfold starts_with in *. rewrite accepts_Space. exact Hr.
Qed.

(** The white space a string begins with. *)
Lemma leading_space s :
  exists ws rest, s = ws ++ rest
                  /\ Forall (fun c => isspace c = true) ws
                  /\ ~ starts_with isspace rest.
Proof.
  induction s as [| c s (ws & rest & -> & Hws & Hrest)].
  - exists [], []. auto.
  - destruct (isspace c) eqn:E.
    + exists (c :: ws), rest. auto.
    + exists [], (c :: ws ++ rest). repeat split; auto.
      unfold starts_with. congruence.
Qed.

Lemma markup_more_space m ws :
  markup isdecimal m -> Forall (fun c => isspace c = true) ws ->
  markup isdecimal (m ++ ws).
Proof.
  intros [d1 w1 w2 d2 w3 Hd1 Hd2 Hf1 Hw1 Hw2 Hf2 Hw3] Hws.
  replace (([LBRACKET] ++ d1 ++ w1 ++ [MINUS; MINUS; GREATER] ++ w2 ++ d2
            ++ [RBRACKET] ++ w3) ++ ws)
    with ([LBRACKET] ++ d1 ++ w1 ++ [MINUS; MINUS; GREATER] ++ w2 ++ d2
          ++ [RBRACKET] ++ (w3 ++ ws))
    by (simpl; rewrite <- ?app_assoc; simpl; rewrite <- ?app_assoc; reflexivity).
  constructor; try assumption. apply Forall_app; auto.
Qed.

(** Where the pattern does not match, no markup starts. *)
Lemma TIMESTAMP_none s :
  match_here TIMESTAMP s = None ->
  forall m rest, markup isdecimal m -> s <> m ++ rest.
Proof.
  intros Hnone m rest Hm ->.
  destruct (leading_space rest) as (ws & rest' & -> & Hws & Hrest).
  rewrite app_assoc in Hnone.
  rewrite (TIMESTAMP_exact _ _ (markup_more_space _ _ Hm Hws) Hrest) in Hnone.
  discriminate.
Qed.

Lemma markup_length m : markup isdecimal m -> (0 < length m)%nat.
Proof. intros []. simpl. lia. Qed.

Lemma TIMESTAMP_shrinks s r :
  match_here TIMESTAMP s = Some r -> (length r < length s)%nat.
Proof.
  intros H. apply TIMESTAMP_sound in H as (m & Hm & -> & _).
  apply markup_length in Hm. rewrite length_app. lia.
Qed.

(** [re.sub] removes the markup. *)
Lemma sub_removes_markup s :
  removes_markup isdecimal s (re.sub isdecimal TIMESTAMP s).
Proof.
  unfold re.sub.
  remember (length s) as n eqn:Hn.
  assert (Hle : (length s <= n)%nat) by lia. clear Hn.
  revert s Hle. induction n as [| n IH]; intros s Hle.
  - destruct s; [| simpl in Hle; lia]. constructor.
  - rewrite (sub_from_enough _ TIMESTAMP_shrinks (S n) (length s)) by lia.
    destruct s as [| c s]; [constructor |].
    rewrite (sub_from_cons _ TIMESTAMP_shrinks).
    destruct (match_here TIMESTAMP (c :: s)) as [r |] eqn:E.
    + pose proof (TIMESTAMP_shrinks _ _ E) as Hlen.
      apply TIMESTAMP_sound in E as (m & Hm & Heq & Hr).
      rewrite Heq. apply removes_drop; [exact Hm | exact Hr |].
      simpl in Hle, Hlen.
      rewrite (sub_from_enough _ TIMESTAMP_shrinks (length r) n) by lia.
      apply IH. lia.
    + apply removes_keep; [apply TIMESTAMP_none, E |].
      rewrite (sub_from_enough _ TIMESTAMP_shrinks (length s) n)
        by (simpl in Hle; lia).
      apply IH. simpl in Hle. lia.
Qed.

(** Nothing else does. *)
Lemma removes_markup_unique s out :
  removes_markup isdecimal s out -> out = re.sub isdecimal TIMESTAMP s.
Proof.
  unfold re.sub. induction 1 as [| m rest out Hm Hrest _ IH | c s out Hno _ IH].
  - reflexivity.
  - pose proof (markup_length _ Hm) as Hlen.
    destruct (m ++ rest) as [| c s] eqn:E.
    + apply (f_equal length) in E. rewrite length_app in E. simpl in E. lia.
    + rewrite (sub_from_cons _ TIMESTAMP_shrinks), <- E.
      rewrite (TIMESTAMP_exact _ _ Hm Hrest). exact IH.
  - rewrite (sub_from_cons _ TIMESTAMP_shrinks).
    destruct (match_here TIMESTAMP (c :: s)) as [r |] eqn:E.
    + apply TIMESTAMP_sound in E as (m & Hm & E & _).
      destruct (Hno m r Hm E).
    + f_equal. exact IH.
Qed.

End Markup.

(** Two decimal tables that agree on the characters of a string clean it
    alike. *)
Section Tables.

Variables f g : N -> bool.

Local Abbreviation agree := (fun c : N => f c = g c).

Lemma accepts_agree a c : f c = g c -> re.accepts f a c = re.accepts g a c.
Proof.
  intros H. unfold re.accepts. induction a as [| x a IH]; [reflexivity |].
  simpl. rewrite IH. destruct x; simpl; rewrite ?H; reflexivity.
Qed.

Lemma greedy_agree ok1 ok2 k1 k2 s :
  (forall c, f c = g c -> ok1 c = ok2 c) ->
  (forall s', Forall agree s' -> k1 s' = k2 s') ->
  Forall agree s ->
  re.greedy ok1 k1 s = re.greedy ok2 k2 s.
Proof.
  intros Hok Hk Hs. induction Hs as [| c s Hc Hs IH]; simpl.
  - apply Hk. constructor.
  - rewrite (Hok c Hc), IH, (Hk (c :: s)) by (constructor; assumption).
    reflexivity.
Qed.

Lemma match_here_agree p : forall s,
  Forall agree s -> re.match_here f p s = re.match_here g p s.
Proof.
  induction p as [| [a | a | a] p IH]; intros s Hs; simpl.
  - reflexivity.
  - destruct Hs as [| c s Hc Hs]; [reflexivity |].
    rewrite (accepts_agree a c Hc), (IH s Hs). reflexivity.
  - destruct Hs as [| c s Hc Hs]; [reflexivity |].
    rewrite (accepts_agree a c Hc).
    destruct (re.accepts g a c); [| reflexivity].
    apply greedy_agree; auto using accepts_agree.
  - apply greedy_agree; auto using accepts_agree.
Qed.

Lemma match_here_rest p : forall s r,
  re.match_here f p s = Some r -> exists m, s = m ++ r.
Proof.
  induction p as [| [a | a | a] p IH]; intros s r H.
  - injection H as <-. exists []. reflexivity.
  - apply match_One in H as (c & s' & -> & _ & H).
    destruct (IH _ _ H) as [m ->]. exists (c :: m). reflexivity.
  - apply match_Plus in H as (x & b & -> & _ & _ & H).
    destruct (IH _ _ H) as [m ->]. exists (x ++ m). apply app_assoc.
  - apply match_Star in H as (x & b & -> & _ & H).
    destruct (IH _ _ H) as [m ->]. exists (x ++ m). apply app_assoc.
Qed.

Lemma expect_agree ts1 ts2 :
  Forall2 (fun t1 t2 : N -> bool => forall c, f c = g c -> t1 c = t2 c) ts1 ts2 ->
  forall s, Forall agree s -> expect ts1 s = expect ts2 s.
Proof.
  induction 1 as [| t1 t2 ts1 ts2 Ht _ IH]; intros s Hs; simpl.
  - reflexivity.
  - destruct Hs as [| c s Hc Hs]; [reflexivity |].
    rewrite (Ht c Hc), (IH s Hs). reflexivity.
Qed.

Lemma expect_rest ts : forall s r, expect ts s = Some r -> exists m, s = m ++ r.
Proof.
  induction ts as [| t ts IH]; intros s r H; simpl in H.
  - injection H as <-. exists []. reflexivity.
  - destruct s as [| c s]; [discriminate |].
    destruct (t c); [| discriminate].
    destruct (IH _ _ H) as [m ->]. exists (c :: m). reflexivity.
Qed.

Lemma sub_from_agree m1 m2 :
  (forall s, Forall agree s -> m1 s = m2 s) ->
  (forall s r, m1 s = Some r -> exists m, s = m ++ r) ->
  forall n s, Forall agree s -> re.sub_from m1 n s = re.sub_from m2 n s.
Proof.
  intros Hm Hrest. induction n as [| n IH]; intros s Hs; simpl; [reflexivity |].
  destruct s as [| c s]; [reflexivity |].
  rewrite <- (Hm _ Hs). destruct (m1 (c :: s)) as [r |] eqn:E.
  - apply IH. destruct (Hrest _ _ E) as [m Heq]. rewrite Heq in Hs.
    apply Forall_app in Hs as [_ Hr]. exact Hr.
  - f_equal. apply IH. inversion Hs; assumption.
Qed.

Lemma lstrip_Forall (P : N -> Prop) s : Forall P s -> Forall P (lstrip s).
Proof.
  induction 1 as [| c s Hc Hs IH]; simpl; [constructor |].
  destruct (isspace c); [exact IH | constructor; assumption].
Qed.

Lemma strip_Forall (P : N -> Prop) s : Forall P s -> Forall P (strip s).
Proof.
  intros H. unfold strip, rstrip.
  apply Forall_rev, lstrip_Forall, Forall_rev, lstrip_Forall, H.
Qed.

Lemma clean_output_agree s :
  Forall agree s -> clean_output f s = clean_output g s.
Proof.
  intros Hs. unfold clean_output, re.sub. f_equal.
  apply sub_from_agree.
  - apply match_here_agree.
  - apply match_here_rest.
  - apply strip_Forall, Hs.
Qed.

Lemma claimed_output_agree s :
  Forall agree s -> claimed_output f s = claimed_output g s.
Proof.
  intros Hs. unfold claimed_output. f_equal.
  apply sub_from_agree.
  - apply expect_agree. unfold exact_stamp, clock. simpl.
    repeat constructor; auto.
  - apply expect_rest.
  - apply strip_Forall, Hs.
Qed.

End Tables.

Lemma ascii_digit_table : decimal_table ascii_digit.
Proof.
  split; [reflexivity |].
  intros c H. unfold ascii_digit in H. apply andb_true_iff in H as [H1 H2].
  apply N.leb_le in H1, H2. unfold isspace.
  repeat match goal with
         | |- context [(?a <=? ?b)] => destruct (N.leb_spec a b); try lia
         | |- context [(?a =? ?b)] => destruct (N.eqb_spec a b); try lia
         end; reflexivity.
Qed.

(** A string of characters below 128 is cleaned the same under every
    decimal table. *)
Lemma clean_output_ascii isdecimal s :
  decimal_table isdecimal ->
  forallb (fun c => c <? 128) s = true ->
  clean_output isdecimal s = clean_output ascii_digit s
  /\ claimed_output isdecimal s = claimed_output ascii_digit s.
Proof.
  intros [Hlow _] Hs.
  assert (Forall (fun c => isdecimal c = ascii_digit c) s).
  { rewrite forallb_forall in Hs. apply List.Forall_forall. intros c Hc.
    apply Hlow, N.ltb_lt, Hs, Hc. }
  split; [apply clean_output_agree | apply claimed_output_agree]; assumption.
Qed.

(* ===================================================================== *)
(** * Properties of [transcribe] *)
(* ===================================================================== *)

Section Transcribe.

Variable h : Host.
Variable self : transcription.Transcriber.
Variable audio_data : list Byte.byte.

Local Abbreviation default := (config.language (transcription.config self)).

(** One call, step by step: write, run, judge, unlink. *)
Lemma transcribe_steps language w :
  transcription.transcribe h self audio_data language w =
  let eff := py_or language default in
  let t := temp_path h w in
  match subprocess_run h (transcription.command self eff t) 60
        (written h audio_data w) with
  | (w2, r) =>
      ({| files := delete t (files w2); events := events w2 ++ [Unlinked t] |},
       match r with
       | Ok p => verdict h eff p
       | Raise e => Raise e
       end)
  end.
Proof.
  unfold transcription.transcribe, bind, try_finally, NamedTemporaryFile,
    unlink_missing_ok, written, temp_path, verdict; simpl.
  destruct (subprocess_run h _ 60 _) as [w2 [p | e]]; simpl; [| reflexivity].
  destruct (negb (returncode p =? 0)%Z); reflexivity.
Qed.

(** What running the child does to the world. *)
Lemma subprocess_run_world cmd timeout w w2 r :
  subprocess_run h cmd timeout w = (w2, r) ->
  (w2 = w /\ forall p, r <> Ok p)
  \/ exists args d e,
       argv 0 cmd = inr args
       /\ launch h args (files w) = Ok (d, e)
       /\ w2 = {| files := d; events := events w ++ [Spawned args timeout] |}
       /\ r = match e with
              | Exits ms rc out err =>
                  if (Z.of_N ms <=? 1000 * timeout)%Z
                  then Ok {| returncode := rc; stdout := out; stderr := err |}
                  else Raise (TimeoutExpired args timeout)
              | Hangs => Raise (TimeoutExpired args timeout)
              end.
Proof.
  unfold subprocess_run, raise. intros H.
  destruct (argv 0 cmd) as [i | args] eqn:Ha.
  - injection H as <- <-. left. split; [reflexivity | discriminate].
  - destruct (launch h args (files w)) as [[d e] | x] eqn:Hl.
    + right. exists args, d, e. repeat split; try assumption.
      * destruct e as [ms rc out err |];
          [destruct (Z.of_N ms <=? 1000 * timeout)%Z |];
          injection H as <- _; reflexivity.
      * destruct e as [ms rc out err |];
          [destruct (Z.of_N ms <=? 1000 * timeout)%Z |];
          injection H as _ <-; reflexivity.
    + injection H as <- <-. left. split; [reflexivity | discriminate].
Qed.

(** A command line that is started is the list it was built as. *)
Lemma argv_strings cmd : forall i args,
  argv i cmd = inr args -> cmd = map VStr args.
Proof.
  induction cmd as [| v cmd IH]; intros i args H; simpl in H.
  - injection H as <-. reflexivity.
  - destruct v; try discriminate.
    destruct (argv (S i) cmd) as [j | l] eqn:E; [discriminate |].
    injection H as <-. simpl. f_equal. eapply IH, E.
Qed.

(** The history a call appends: the creation, at most one child, the
    unlinking. *)
Lemma transcribe_history language w :
  let t := temp_path h w in
  let eff := py_or language default in
  exists mid,
    events (fst (transcription.transcribe h self audio_data language w))
    = events w ++ [Created t] ++ mid ++ [Unlinked t]
    /\ (mid = [] \/
        exists args, mid = [Spawned args 60]
                     /\ transcription.command self eff t = map VStr args).
Proof.
  intros t eff. rewrite transcribe_steps. cbv zeta. fold t eff.
  destruct (subprocess_run h _ 60 (written h audio_data w)) as [w2 r] eqn:E.
  apply subprocess_run_world in E as [[-> _] | (args & d & e & Ha & _ & -> & _)].
  - exists []. split; [| left; reflexivity].
    simpl. rewrite <- app_assoc. reflexivity.
  - exists [Spawned args 60]. split.
    + simpl. rewrite <- !app_assoc. reflexivity.
    + right. exists args. split; [reflexivity |].
      eapply argv_strings, Ha.
Qed.

(** C1 -- the temporary file of a call is gone when the call ends,
    however it ends: the path is absent from the disk afterwards, the
    call unlinks it exactly once, as its last act, and unlinking a path
    that is already missing succeeds and leaves the disk as it is. *)
Theorem transcribe_deletes_temp_file language w :
  let t := temp_path h w in
  let w' := fst (transcription.transcribe h self audio_data language w) in
  files w' !! t = None
  /\ (exists mid,
        events w' = events w ++ [Created t] ++ mid ++ [Unlinked t]
        /\ forall e, e ∈ mid -> exists cmd timeout, e = Spawned cmd timeout)
  /\ (forall p w0,
        files w0 !! p = None ->
        snd (unlink_missing_ok p w0) = Ok ()
        /\ files (fst (unlink_missing_ok p w0)) = files w0).
Proof.
  intros t w'. split; [| split].
  - subst w'. rewrite transcribe_steps. cbv zeta.
    destruct (subprocess_run h _ 60 (written h audio_data w)) as [w2 r]. simpl.
    apply lookup_delete_eq.
  - destruct (transcribe_history language w) as (mid & Hev & Hmid).
    exists mid. split; [exact Hev |].
    intros e He. destruct Hmid as [-> | (args & -> & _)].
    + inversion He.
    + apply list_elem_of_singleton in He as ->. eauto.
  - intros p w0 Hp. split; [reflexivity |].
    simpl. apply delete_id, Hp.
Qed.

Lemma argv_map_VStr args : forall i, argv i (map VStr args) = inr args.
Proof.
  induction args as [| a args IH]; intros i; simpl; [reflexivity |].
  rewrite IH. reflexivity.
Qed.

(** A call whose command line is all strings and whose child starts. *)
Lemma transcribe_launched language w args d e :
  transcription.command self (py_or language default) (temp_path h w)
    = map VStr args ->
  launch h args (files (written h audio_data w)) = Ok (d, e) ->
  transcription.transcribe h self audio_data language w =
  ({| files := delete (temp_path h w) d;
      events := (events w ++ [Created (temp_path h w)])
                ++ [Spawned args 60] ++ [Unlinked (temp_path h w)] |},
   match e with
   | Exits ms rc out err =>
       if (Z.of_N ms <=? 60000)%Z
       then verdict h (py_or language default)
              {| returncode := rc; stdout := out; stderr := err |}
       else Raise (TimeoutExpired args 60)
   | Hangs => Raise (TimeoutExpired args 60)
   end).
Proof.
  intros Hc Hl. rewrite transcribe_steps. cbv zeta.
  unfold subprocess_run. rewrite Hc, argv_map_VStr, Hl.
  destruct e as [ms rc out err |]; simpl.
  - change (1000 * 60)%Z with 60000%Z.
    destruct (Z.of_N ms <=? 60000)%Z; simpl; rewrite <- !app_assoc; reflexivity.
  - rewrite <- !app_assoc. reflexivity.
Qed.

Lemma effective_language_or (override : option str) :
  py_or (optional override) default = effective_language override default.
Proof. destruct override as [[| c s] |]; reflexivity. Qed.

(** C3 -- the effective language of a call is the override when one is
    given and is not empty, and the configured default otherwise. A call
    whose command line is all strings and whose child starts has started
    that child, once and with a timeout of 60 seconds, with the effective
    language as the argument behind [-l]; it returns a result exactly when
    the child ends in time with status 0, and the result then has the
    effective language as its language. *)
Theorem transcribe_uses_effective_language (override : option str)
        w args d e :
  let eff := effective_language override default in
  transcription.command self eff (temp_path h w) = map VStr args ->
  launch h args (files (written h audio_data w)) = Ok (d, e) ->
  let t := temp_path h w in
  let run := transcription.transcribe h self audio_data (optional override) w in
  events (fst run) = events w ++ [Created t; Spawned args 60; Unlinked t]
  /\ args !! 3%nat = Some (u "-l")
  /\ VStr <$> args !! 4%nat = Some eff
  /\ match e with
     | Exits ms rc out err =>
         if (Z.of_N ms <=? 60000)%Z && (rc =? 0)%Z
         then exists res, snd run = Ok res /\ transcription.language res = eff
         else forall res, snd run <> Ok res
     | Hangs => forall res, snd run <> Ok res
     end
  /\ (forall res, snd run = Ok res -> transcription.language res = eff).
Proof.
  intros eff Hc Hl t run.
  assert (Hc' : transcription.command self
                  (py_or (optional override) default) (temp_path h w)
                = map VStr args)
    by (rewrite effective_language_or; exact Hc).
  assert (Hrun : run =
            ({| files := delete t d;
                events := events w ++ [Created t; Spawned args 60; Unlinked t] |},
             match e with
             | Exits ms rc out err =>
                 if (Z.of_N ms <=? 60000)%Z
                 then verdict h eff
                        {| returncode := rc; stdout := out; stderr := err |}
                 else Raise (TimeoutExpired args 60)
             | Hangs => Raise (TimeoutExpired args 60)
             end)).
  { subst run. rewrite (transcribe_launched _ _ _ _ _ Hc' Hl).
    rewrite effective_language_or. fold t eff.
    rewrite <- app_assoc. reflexivity. }
  rewrite Hrun. cbn [fst snd events].
  split; [reflexivity |]. split; [| split; [| split]].
  - unfold transcription.command in Hc.
    destruct (truthy _) in Hc; simpl in Hc;
      destruct args as [| a0 [| a1 [| a2 [| a3 [| a4 args]]]]];
      try discriminate Hc;
      injection Hc; intros _ _ <- _ _ _; reflexivity.
  - unfold transcription.command in Hc.
    destruct (truthy _) in Hc; simpl in Hc;
      destruct args as [| a0 [| a1 [| a2 [| a3 [| a4 args]]]]];
      try discriminate Hc;
      injection Hc; intros _ Heff _ _ _ _; simpl; rewrite Heff; reflexivity.
  - destruct e as [ms rc out err |]; [| discriminate].
    unfold verdict. cbn [returncode stdout stderr].
    destruct (Z.of_N ms <=? 60000)%Z; cbn [andb]; [| discriminate].
    destruct (rc =? 0)%Z; cbn [negb]; [| discriminate].
    eexists. split; reflexivity.
  - intros res Hres.
    destruct e as [ms rc out err |]; [| discriminate Hres].
    destruct (Z.of_N ms <=? 60000)%Z; [| discriminate Hres].
    unfold verdict in Hres. destruct (negb _); [discriminate Hres |].
    injection Hres as <-. reflexivity.
Qed.


(** C5 -- when the child ends in time with a status other than 0, the
    call raises [RuntimeError] and returns no result, and the message
    holds the child's standard error as it is; a result is returned for
    status 0 and for no other. *)
Theorem nonzero_exit_raises_RuntimeError language w args d ms rc out err :
  transcription.command self (py_or language default) (temp_path h w)
    = map VStr args ->
  launch h args (files (written h audio_data w))
    = Ok (d, Exits ms rc out err) ->
  (Z.of_N ms <= 60000)%Z ->
  let r := snd (transcription.transcribe h self audio_data language w) in
  (rc <> 0%Z ->
     r = Raise (RuntimeError (u "whisper-cli failed: " ++ err))
     /\ contains (u "whisper-cli failed: " ++ err) err)
  /\ ((exists res, r = Ok res) <-> rc = 0%Z).
Proof.
  intros Hc Hl Hms r. subst r.
  rewrite (transcribe_launched _ _ _ _ _ Hc Hl). simpl snd.
  apply Z.leb_le in Hms. rewrite Hms. unfold verdict. simpl.
  destruct (Z.eqb_spec rc 0) as [-> | Hrc]; simpl.
  - split; [intros Hne; contradiction |].
    split; [reflexivity | eauto].
  - split.
    + intros _. split; [reflexivity |].
      exists (u "whisper-cli failed: "), []. rewrite app_nil_r. reflexivity.
    + split; [intros [res Hres]; discriminate | intros; contradiction].
Qed.

(** C6 -- the child is started with a timeout of 60 seconds, and when it
    is still running after them the call raises [TimeoutExpired]: no
    result, and not the [RuntimeError] of a failed engine. The endpoint
    answers it like any other failure of the transcription, with status
    500. *)
Theorem overrun_raises_TimeoutExpired language w args d e :
  transcription.command self (py_or language default) (temp_path h w)
    = map VStr args ->
  launch h args (files (written h audio_data w)) = Ok (d, e) ->
  overruns e 60 ->
  let t := temp_path h w in
  let run := transcription.transcribe h self audio_data language w in
  events (fst run) = events w ++ [Created t; Spawned args 60; Unlinked t]
  /\ snd run = Raise (TimeoutExpired args 60)
  /\ (forall msg, snd run <> Raise (RuntimeError msg))
  /\ (forall res, snd run <> Ok res)
  /\ (forall g req,
        server.transcriber g = Some self ->
        server.file req = audio_data ->
        audio_data <> [] ->
        server.language req = language ->
        server.respond (snd (server.transcribe h g req w))
        = Some {| server.status_code := 500;
                  server.text := None;
                  server.detail :=
                    Some (u "Transcription failed: "
                          ++ lib_text h (TimeoutExpired args 60)) |}).
Proof.
  intros Hc Hl Ho t run.
  assert (Hrun : run =
            ({| files := delete t d;
                events := events w ++ [Created t; Spawned args 60; Unlinked t] |},
             Raise (TimeoutExpired args 60))).
  { subst run. rewrite (transcribe_launched _ _ _ _ _ Hc Hl). fold t.
    rewrite <- app_assoc. simpl app. f_equal.
    destruct e as [ms rc out err |]; [| reflexivity].
    simpl in Ho. destruct (Z.leb_spec (Z.of_N ms) 60000); [lia | reflexivity]. }
  rewrite Hrun. simpl. repeat split; try discriminate.
  intros g req Hg Hf Hne Hlang.
  unfold server.transcribe. rewrite Hg, Hf, Hlang.
  assert (Hlen : (length audio_data =? 0)%nat = false)
    by (destruct audio_data; [contradiction | reflexivity]).
  rewrite Hlen. fold run. rewrite Hrun. reflexivity.
Qed.

(** C2, as the code has it -- when the child ends in time with status 0,
    the call returns a result whose text is the child's standard output
    trimmed, then freed of its markup, then trimmed again; the markup is
    every bracketed pair of runs of decimals, colons and dots around an
    arrow, with any white space around the arrow, and it is taken out
    together with all the white space behind its closing bracket; the
    characters outside the markup stay as they are and in their order, and
    no other text fits this description. *)
Theorem success_text_is_cleaned_output language w args d ms out err :
  decimal_table (isdecimal h) ->
  transcription.command self (py_or language default) (temp_path h w)
    = map VStr args ->
  launch h args (files (written h audio_data w))
    = Ok (d, Exits ms 0 out err) ->
  (Z.of_N ms <= 60000)%Z ->
  exists res kept,
    snd (transcription.transcribe h self audio_data language w) = Ok res
    /\ transcription.text res = strip kept
    /\ removes_markup (isdecimal h) (strip out) kept
    /\ forall kept', removes_markup (isdecimal h) (strip out) kept' ->
                     kept' = kept.
Proof.
  intros Ht Hc Hl Hms.
  exists {| transcription.text := clean_output (isdecimal h) out;
            transcription.language := py_or language default;
            transcription.duration_ms := 0;
            transcription.segments := None |},
         (re.sub (isdecimal h) TIMESTAMP (strip out)).
  split; [| split; [| split]].
  - rewrite (transcribe_launched _ _ _ _ _ Hc Hl). simpl snd.
    apply Z.leb_le in Hms. rewrite Hms. reflexivity.
  - reflexivity.
  - apply sub_removes_markup, Ht.
  - intros kept'. apply removes_markup_unique, Ht.
Qed.

End Transcribe.

(* ===================================================================== *)
(** * Properties of the construction and of the endpoint *)
(* ===================================================================== *)

Section Server.

Variable h : Host.

(** The constructor leaves the world alone, and answers by whether the
    resolved path is on the disk. *)
Lemma Transcriber_init_cases model_path wc vc w :
  let p := resolve h (files w) model_path in
  transcription.Transcriber_init h model_path wc vc w =
  (w, match files w !! p with
      | Some _ => Ok {| transcription.model_path := p;
                        transcription.config := wc;
                        transcription.vad_config := vc |}
      | None => Raise (FileNotFoundError (u "Whisper model not found: " ++ p))
      end).
Proof.
  intros p. unfold transcription.Transcriber_init, exists_. fold p.
  destruct (files w !! p) as [b |] eqn:E.
  - rewrite bool_decide_eq_true_2 by eauto. reflexivity.
  - rewrite bool_decide_eq_false_2 by (intros [? ?]; discriminate). reflexivity.
Qed.

(** The endpoint while the transcriber is unset. *)
Lemma transcribe_unavailable g req w :
  server.transcriber g = None ->
  server.transcribe h g req w
  = (w, Raise (HTTPException 503 (u "Model not loaded"))).
Proof. intros Hg. unfold server.transcribe. rewrite Hg. reflexivity. Qed.

(** C9 -- constructing a transcriber whose resolved model path is not on
    the disk raises [FileNotFoundError] with the model-not-found message,
    and a construction that returns has its model on the disk; a start-up
    that meets the missing model raises the same error and leaves the
    transcriber unset, so that every request is answered 503. *)
Theorem missing_model_raises_FileNotFoundError model_path wc vc w :
  files w !! resolve h (files w) model_path = None ->
  transcription.Transcriber_init h model_path wc vc w
  = (w, Raise (FileNotFoundError
                 (u "Whisper model not found: "
                  ++ resolve h (files w) model_path)))
  /\ (forall w0 w1 t,
        transcription.Transcriber_init h model_path wc vc w0 = (w1, Ok t) ->
        is_Some (files w0 !! transcription.model_path t))
  /\ (forall src cfg p,
        config.load_config src = Ok cfg ->
        config.model_path (config.whisper cfg) = VStr p ->
        joinpath h (project_root h) p = model_path ->
        exists g,
          server.lifespan h src server.initial w
          = (w, (g, Raise (FileNotFoundError
                             (u "Whisper model not found: "
                              ++ resolve h (files w) model_path))))
          /\ server.transcriber g = None
          /\ forall req w2,
               server.respond (snd (server.transcribe h g req w2))
               = Some {| server.status_code := 503;
                         server.text := None;
                         server.detail := Some (u "Model not loaded") |}).
Proof.
  intros Hmiss. split; [| split].
  - rewrite Transcriber_init_cases. cbv zeta. rewrite Hmiss. reflexivity.
  - intros w0 w1 t H. rewrite Transcriber_init_cases in H. cbv zeta in H.
    destruct (files w0 !! _) as [b |] eqn:E; [| discriminate].
    injection H as _ <-. simpl. eauto.
  - intros src cfg p Hload Hp Hjoin.
    exists {| server.transcriber := None; server.config := Some cfg |}.
    split; [| split].
    + unfold server.lifespan. rewrite Hload, Hp, Hjoin.
      rewrite Transcriber_init_cases. cbv zeta. rewrite Hmiss. reflexivity.
    + reflexivity.
    + intros req w2. rewrite transcribe_unavailable by reflexivity. reflexivity.
Qed.

(** C10 -- the endpoint looks at the transcriber before it looks at the
    upload: while the transcriber is unset every request raises the 503,
    an empty upload included; once it is set an empty upload raises the
    400; and a 400 is raised in no other case. *)
Theorem availability_is_checked_before_the_upload g req w :
  (server.transcriber g = None ->
   server.transcribe h g req w
   = (w, Raise (HTTPException 503 (u "Model not loaded"))))
  /\ (forall t,
        server.transcriber g = Some t ->
        server.file req = [] ->
        server.transcribe h g req w
        = (w, Raise (HTTPException 400 (u "Empty audio file"))))
  /\ (forall w' d,
        server.transcribe h g req w = (w', Raise (HTTPException 400 d)) ->
        is_Some (server.transcriber g) /\ server.file req = []).
Proof.
  split; [| split].
  - apply transcribe_unavailable.
  - intros t Hg Hf. unfold server.transcribe. rewrite Hg, Hf. reflexivity.
  - intros w' d H. unfold server.transcribe in H.
    destruct (server.transcriber g) as [t |]; [| discriminate].
    split; [eauto |].
    destruct (server.file req) as [| b bs]; [reflexivity |].
    simpl in H.
    destruct (transcription.transcribe h t (b :: bs) (server.language req) w)
      as [w2 [res | e]]; [discriminate |].
    destruct e; discriminate.
Qed.

End Server.

(* ===================================================================== *)
(** * Properties of [load_config] *)
(* ===================================================================== *)

Section Load.

Context {A : Type} (cls : string) (fields : list string)
        (build : list (value * value) -> A).

Lemma recognized_cons k v kw :
  recognized fields ((k, v) :: kw) ->
  (exists f, f ∈ fields /\ k = VStr (u f)) /\ recognized fields kw.
Proof.
  intros H. split.
  - apply (H k v). left.
  - intros k' v' Hin. apply (H k' v'). right. exact Hin.
Qed.

Lemma field_known f : f ∈ fields ->
  existsb (fun f' => bool_decide (u f' = u f)) fields = true.
Proof.
  intros Hin. apply existsb_exists. exists f. split.
  - apply list_elem_of_In, Hin.
  - apply bool_decide_eq_true_2. reflexivity.
Qed.

(** A dict of recognized keys is accepted. *)
Lemma construct_recognized kw :
  recognized fields kw -> config.construct cls fields build kw = Ok (build kw).
Proof.
  intros H. unfold config.construct.
  assert (Hs : forallb (fun e => config.is_str (fst e)) kw = true
               /\ config.unexpected fields kw = None).
  { induction kw as [| [k v] kw IH]; [split; reflexivity |].
    apply recognized_cons in H as [(f & Hf & ->) Hkw].
    destruct (IH Hkw) as [IH1 IH2]. simpl.
    rewrite IH1, (field_known _ Hf), IH2. split; reflexivity. }
  destruct Hs as [-> ->]. reflexivity.
Qed.

(** A dict with a key that names no field is refused. *)
Lemma construct_unrecognized kw k v :
  (k, v) ∈ kw ->
  (forall f, f ∈ fields -> k <> VStr (u f)) ->
  exists why, config.construct cls fields build kw = Raise (TypeError why).
Proof.
  intros Hin Hk. unfold config.construct.
  destruct (forallb _ kw) eqn:Hstr; [| eauto].
  assert (Hks : exists ks, k = VStr ks).
  { rewrite forallb_forall in Hstr.
    specialize (Hstr (k, v) (proj1 (list_elem_of_In _ _) Hin)).
    destruct k; try discriminate Hstr. eauto. }
  destruct Hks as [ks ->].
  assert (Hu : exists k', config.unexpected fields kw = Some k').
  { clear Hstr. induction kw as [| [k0 v0] kw IH]; [inversion Hin |].
    simpl. apply elem_of_cons in Hin as [Heq | Hin].
    - injection Heq as <- <-.
      destruct (existsb _ fields) eqn:E; [| eauto].
      apply existsb_exists in E as (f & Hf & Hd).
      apply bool_decide_eq_true_1 in Hd.
      exfalso. apply (Hk f); [apply list_elem_of_In, Hf | congruence].
    - destruct k0; try (apply IH, Hin).
      destruct (existsb _ fields); [apply IH, Hin | eauto]. }
  destruct Hu as [k' ->]. eauto.
Qed.

(** A constructor raises nothing but [TypeError]. *)
Lemma construct_raises kw e :
  config.construct cls fields build kw = Raise e -> exists why, e = TypeError why.
Proof.
  unfold config.construct. intros H.
  destruct (forallb _ kw); [| injection H as <-; eauto].
  destruct (config.unexpected fields kw); [| discriminate].
  injection H as <-. eauto.
Qed.

Lemma section_raises data name e :
  config.section (config.construct cls fields build) data name = Raise e ->
  exists why, e = TypeError why.
Proof.
  unfold config.section. intros H.
  destruct (config.get _ data) as [[v | n | kw] |].
  - injection H as <-. eauto.
  - injection H as <-. eauto.
  - eapply construct_raises, H.
  - eapply construct_raises, H.
Qed.

Lemma section_valid data name :
  valid_section data name fields ->
  config.section (config.construct cls fields build) data name
  = Ok (build match config.get (VStr (u name)) data with
              | Some (config.Mapping kw) => kw
              | _ => []
              end).
Proof.
  unfold valid_section, config.section.
  destruct (config.get _ data) as [[v | n | kw] |]; try contradiction.
  - apply construct_recognized.
  - intros _. reflexivity.
Qed.

Lemma section_unrecognized data name kw k v :
  config.get (VStr (u name)) data = Some (config.Mapping kw) ->
  (k, v) ∈ kw ->
  (forall f, f ∈ fields -> k <> VStr (u f)) ->
  exists why,
    config.section (config.construct cls fields build) data name
    = Raise (TypeError why).
Proof.
  intros Hget Hin Hk. unfold config.section. rewrite Hget.
  eapply construct_unrecognized; eassumption.
Qed.

End Load.

(** C7 -- from every valid source (no file, an empty file, a file stating
    all or some of the fields) [load_config] returns a configuration, and
    each of its fields holds the value the source states for it or, when
    the source states none, the documented default; without a file the
    configuration is the default one. *)
Theorem load_config_fills_every_field src :
  valid_source src ->
  exists cfg,
    config.load_config src = Ok cfg
    /\ config.host (config.server cfg)
       = explicit_or src "server" "host" (VStr (u "0.0.0.0"))
    /\ config.port (config.server cfg)
       = explicit_or src "server" "port" (VInt 8005)
    /\ config.model_path (config.whisper cfg)
       = explicit_or src "whisper" "model_path" (VStr (u "models/ggml-base.bin"))
    /\ config.language (config.whisper cfg)
       = explicit_or src "whisper" "language" (VStr (u "en"))
    /\ config.threads (config.whisper cfg)
       = explicit_or src "whisper" "threads" (VInt 4)
    /\ config.enabled (config.vad cfg)
       = explicit_or src "vad" "enabled" (VBool true)
    /\ config.threshold (config.vad cfg)
       = explicit_or src "vad" "threshold" (VFloat (u "0.5"))
    /\ config.min_speech_duration_ms (config.vad cfg)
       = explicit_or src "vad" "min_speech_duration_ms" (VInt 250)
    /\ config.min_silence_duration_ms (config.vad cfg)
       = explicit_or src "vad" "min_silence_duration_ms" (VInt 700)
    /\ (src = config.Missing -> cfg = config.Config_default).
Proof.
  intros [| | d Hs Hw Hv].
  - exists config.Config_default. repeat split; reflexivity.
  - exists config.Config_default. repeat split; reflexivity.
  - unfold config.load_config, config.sections,
      config.ServerConfig_init, config.WhisperConfig_init,
      config.VADConfig_init.
    rewrite (section_valid _ _ _ _ _ Hs), (section_valid _ _ _ _ _ Hw),
      (section_valid _ _ _ _ _ Hv).
    eexists. split; [reflexivity |].
    unfold explicit_or, explicit, config.field. cbn [config.server
      config.whisper config.vad config.host config.port config.model_path
      config.language config.threads config.enabled config.threshold
      config.min_speech_duration_ms config.min_silence_duration_ms].
    repeat split; try discriminate;
      match goal with
      | |- context [config.get (VStr (u ?n)) d] =>
          destruct (config.get (VStr (u n)) d) as [[? | ? | ?] |]; reflexivity
      end.
Qed.

(** C8 -- a file in which one of the three sections has a key that names
    no field of the section's class makes [load_config] raise a
    [TypeError]; no configuration is returned. *)
Theorem unrecognized_key_raises_TypeError d name fields kw k v :
  (name, fields) ∈ section_classes ->
  config.get (VStr (u name)) d = Some (config.Mapping kw) ->
  (k, v) ∈ kw ->
  (forall f, f ∈ fields -> k <> VStr (u f)) ->
  exists why,
    config.load_config (config.Loaded (config.DocMapping d))
    = Raise (TypeError why).
Proof.
  intros Hcls Hget Hin Hk.
  unfold config.load_config, config.sections,
    config.ServerConfig_init, config.WhisperConfig_init, config.VADConfig_init.
  unfold section_classes in Hcls.
  repeat (apply elem_of_cons in Hcls as [Hcls | Hcls]);
    [injection Hcls as -> -> .. | inversion Hcls].
  - edestruct (section_unrecognized (A := config.ServerConfig))
      as [why ->]; [exact Hget | exact Hin | exact Hk |]. eauto.
  - destruct (config.section (config.construct "ServerConfig" _ _) d "server")
      as [s | e] eqn:Es; [| apply section_raises in Es as [why ->]; eauto].
    edestruct (section_unrecognized (A := config.WhisperConfig))
      as [why ->]; [exact Hget | exact Hin | exact Hk |]. eauto.
  - destruct (config.section (config.construct "ServerConfig" _ _) d "server")
      as [s | e] eqn:Es; [| apply section_raises in Es as [why ->]; eauto].
    destruct (config.section (config.construct "WhisperConfig" _ _) d "whisper")
      as [s' | e] eqn:Ew; [| apply section_raises in Ew as [why ->]; eauto].
    edestruct (section_unrecognized (A := config.VADConfig))
      as [why ->]; [exact Hget | exact Hin | exact Hk |]. eauto.
Qed.

(* ===================================================================== *)
(** * Runs on a fake host *)
(* ===================================================================== *)

(** The exit paths of [transcribe], one by one: each ends without the
    temporary file. *)
Example run_success :
  transcription.transcribe
    (fake_host (ends_with (Exits 900 0 stamped_output [])))
    default_transcriber some_audio VNone fresh_world
  = ({| files := {[ model_file := [] ]};
        events := [Created fake_temp; Spawned default_command_line 60;
                   Unlinked fake_temp] |},
     Ok {| transcription.text := u "Hello   world again";
           transcription.language := VStr (u "en");
           transcription.duration_ms := 0;
           transcription.segments := None |}).
Proof. vm_compute. reflexivity. Qed.

Example run_engine_failure :
  transcription.transcribe
    (fake_host (ends_with (Exits 900 3 [] (u "error: bad model"))))
    plain_transcriber some_audio (VStr (u "de")) fresh_world
  = ({| files := {[ model_file := [] ]};
        events := [Created fake_temp; Spawned plain_command_line 60;
                   Unlinked fake_temp] |},
     Raise (RuntimeError (u "whisper-cli failed: error: bad model"))).
Proof. vm_compute. reflexivity. Qed.

Example run_timeout :
  transcription.transcribe
    (fake_host (ends_with (Exits 61000 0 (u "late") [])))
    default_transcriber some_audio (VStr []) fresh_world
  = ({| files := {[ model_file := [] ]};
        events := [Created fake_temp; Spawned default_command_line 60;
                   Unlinked fake_temp] |},
     Raise (TimeoutExpired default_command_line 60)).
Proof. vm_compute. reflexivity. Qed.

Example run_input_already_removed :
  transcription.transcribe
    (fake_host (removes_input (Exits 900 0 (u "ok") [])))
    default_transcriber some_audio VNone fresh_world
  = ({| files := {[ model_file := [] ]};
        events := [Created fake_temp; Spawned default_command_line 60;
                   Unlinked fake_temp] |},
     Ok {| transcription.text := u "ok";
           transcription.language := VStr (u "en");
           transcription.duration_ms := 0;
           transcription.segments := None |}).
Proof. vm_compute. reflexivity. Qed.

Example run_engine_not_installed :
  transcription.transcribe (fake_host not_installed)
    default_transcriber some_audio VNone fresh_world
  = ({| files := {[ model_file := [] ]};
        events := [Created fake_temp; Unlinked fake_temp] |},
     Raise (FileNotFoundError (u "whisper-cli"))).
Proof. vm_compute. reflexivity. Qed.

(** The endpoint before and after the start-up. *)
Example endpoint_before_startup :
  server.respond
    (snd (server.transcribe (fake_host not_installed) server.initial
            {| server.file := []; server.language := VNone |} fresh_world))
  = Some {| server.status_code := 503; server.text := None;
            server.detail := Some (u "Model not loaded") |}.
Proof. reflexivity. Qed.

Example endpoint_empty_upload :
  server.respond
    (snd (server.transcribe (fake_host not_installed)
            {| server.transcriber := Some default_transcriber;
               server.config := Some config.Config_default |}
            {| server.file := []; server.language := VNone |} fresh_world))
  = Some {| server.status_code := 400; server.text := None;
            server.detail := Some (u "Empty audio file") |}.
Proof. reflexivity. Qed.

(** A section that is present and empty is no mapping: the constructor
    refuses it. *)
Example load_config_null_section :
  config.load_config
    (config.Loaded (config.DocMapping [(VStr (u "vad"), config.Scalar VNone)]))
  = Raise (TypeError NotAMapping).
Proof. reflexivity. Qed.

(** A key beside the three sections is passed over. *)
Example load_config_other_section :
  config.load_config
    (config.Loaded (config.DocMapping
       [(VStr (u "logging"), config.Mapping [(VStr (u "level"), VInt 1)])]))
  = Ok config.Config_default.
Proof. reflexivity. Qed.

(** C2, as the specification has it, fails: a stamp between two words
    goes with the blank behind it, where the claimed text keeps both
    blanks, and this under every decimal table; and brackets are taken
    out that hold no time of the form hh:mm:ss.mmm. *)
Lemma cleaned_output_differs_from_claimed :
  (exists res,
     snd (transcription.transcribe
            (fake_host (ends_with (Exits 900 0 stamp_between_words [])))
            default_transcriber some_audio VNone fresh_world) = Ok res
     /\ transcription.text res = u "a b"
     /\ claimed_output ascii_digit stamp_between_words = u "a  b")
  /\ ~ (exists isdecimal,
          decimal_table isdecimal
          /\ clean_output isdecimal stamp_between_words
             = claimed_output isdecimal stamp_between_words)
  /\ clean_output ascii_digit loose_brackets = u "see x"
  /\ claimed_output ascii_digit loose_brackets = loose_brackets.
Proof.
  split; [| split; [| split]].
  - eexists. split; [vm_compute; reflexivity |]. split; vm_compute; reflexivity.
  - intros (isdecimal & Ht & H).
    destruct (clean_output_ascii isdecimal stamp_between_words Ht eq_refl)
      as [E1 E2].
    rewrite E1, E2 in H. vm_compute in H. discriminate H.
  - vm_compute. reflexivity.
  - vm_compute. reflexivity.
Qed.

Lemma success_text_witness :
  exists res kept,
    snd (transcription.transcribe
           (fake_host (ends_with (Exits 900 0 stamped_output [])))
           default_transcriber some_audio VNone fresh_world) = Ok res
    /\ transcription.text res = strip kept
    /\ removes_markup ascii_digit (strip stamped_output) kept
    /\ forall kept', removes_markup ascii_digit (strip stamped_output) kept' ->
                     kept' = kept.
Proof.
  apply (success_text_is_cleaned_output
           (fake_host (ends_with (Exits 900 0 stamped_output [])))
           default_transcriber some_audio VNone fresh_world
           default_command_line
           (files (written (fake_host (ends_with (Exits 900 0 stamped_output [])))
                     some_audio fresh_world))
           900 stamped_output []).
  - exact ascii_digit_table.
  - reflexivity.
  - reflexivity.
  - vm_compute. discriminate.
Defined.

Lemma nonzero_exit_witness :
  snd (transcription.transcribe
         (fake_host (ends_with (Exits 900 3 [] (u "error: bad model"))))
         default_transcriber some_audio VNone fresh_world)
  = Raise (RuntimeError (u "whisper-cli failed: " ++ u "error: bad model")).
Proof.
  refine (proj1 (proj1 (nonzero_exit_raises_RuntimeError
           (fake_host (ends_with (Exits 900 3 [] (u "error: bad model"))))
           default_transcriber some_audio VNone fresh_world
           default_command_line
           (files (written (fake_host (ends_with (Exits 900 3 [] (u "error: bad model"))))
                     some_audio fresh_world))
           900 3 [] (u "error: bad model") _ _ _) _)).
  - reflexivity.
  - reflexivity.
  - vm_compute. discriminate.
  - discriminate.
Defined.

Lemma effective_language_witness :
  events (fst (transcription.transcribe
                 (fake_host (ends_with (Exits 900 0 (u "Guten Tag") [])))
                 plain_transcriber some_audio (optional (Some (u "de")))
                 fresh_world))
  = [Created fake_temp; Spawned plain_command_line 60; Unlinked fake_temp]
  /\ exists res,
       snd (transcription.transcribe
              (fake_host (ends_with (Exits 900 0 (u "Guten Tag") [])))
              plain_transcriber some_audio (optional (Some (u "de")))
              fresh_world) = Ok res
       /\ transcription.language res = VStr (u "de").
Proof.
  destruct (transcribe_uses_effective_language
              (fake_host (ends_with (Exits 900 0 (u "Guten Tag") [])))
              plain_transcriber some_audio (Some (u "de")) fresh_world
              plain_command_line
              (files (written (fake_host (ends_with (Exits 900 0 (u "Guten Tag") [])))
                        some_audio fresh_world))
              (Exits 900 0 (u "Guten Tag") [])
              eq_refl eq_refl)
    as (Hev & _ & _ & Hres & _).
  split; [exact Hev | exact Hres].
Defined.

Lemma overrun_witness :
  snd (transcription.transcribe (fake_host (ends_with Hangs))
         default_transcriber some_audio VNone fresh_world)
  = Raise (TimeoutExpired default_command_line 60).
Proof.
  refine (proj1 (proj2 (overrun_raises_TimeoutExpired
           (fake_host (ends_with Hangs))
           default_transcriber some_audio VNone fresh_world
           default_command_line
           (files (written (fake_host (ends_with Hangs)) some_audio fresh_world))
           Hangs _ _ _))).
  - reflexivity.
  - reflexivity.
  - exact I.
Defined.

Lemma missing_model_witness :
  transcription.Transcriber_init (fake_host not_installed)
    (u "/srv/asr/models/ggml-large.bin")
    (config.whisper config.Config_default) (config.vad config.Config_default)
    fresh_world
  = (fresh_world,
     Raise (FileNotFoundError
              (u "Whisper model not found: " ++ u "/srv/asr/models/ggml-large.bin"))).
Proof.
  refine (proj1 (missing_model_raises_FileNotFoundError
           (fake_host not_installed) (u "/srv/asr/models/ggml-large.bin")
           (config.whisper config.Config_default)
           (config.vad config.Config_default) fresh_world _)).
  vm_compute. reflexivity.
Defined.

Lemma load_config_witness :
  exists cfg,
    config.load_config partial_file = Ok cfg
    /\ config.host (config.server cfg) = VStr (u "0.0.0.0")
    /\ config.language (config.whisper cfg) = VStr (u "de")
    /\ config.threads (config.whisper cfg) = VInt 4
    /\ config.enabled (config.vad cfg) = VBool false.
Proof.
  assert (Hvalid : valid_source partial_file).
  { unfold partial_file. constructor.
    - exact I.
    - intros k v Hin. apply list_elem_of_singleton in Hin. injection Hin as -> _.
      exists "language"%string. split; [| reflexivity].
      right. left.
    - intros k v Hin. apply list_elem_of_singleton in Hin. injection Hin as -> _.
      exists "enabled"%string. split; [| reflexivity].
      left. }
  destruct (load_config_fills_every_field partial_file Hvalid)
    as (cfg & Hload & Hhost & _ & _ & Hlang & Hthreads & Hen & _).
  exists cfg. repeat split; assumption.
Defined.

Lemma unrecognized_key_witness :
  exists why,
    config.load_config (config.Loaded (config.DocMapping misspelt_file))
    = Raise (TypeError why).
Proof.
  apply (unrecognized_key_raises_TypeError misspelt_file
           "server" config.ServerConfig_fields
           [(VStr (u "prot"), VInt 9000)] (VStr (u "prot")) (VInt 9000)).
  - left.
  - reflexivity.
  - left.
  - intros f Hf E.
    repeat (apply elem_of_cons in Hf as [-> | Hf]; [vm_compute in E; discriminate E |]).
    inversion Hf.
Defined.

(* ===================================================================== *)
(** * Further properties of [load_config] *)
(* ===================================================================== *)

Section Constructors.

Context {A : Type} (cls : string) (fields : list string)
        (build : list (value * value) -> A).

(** A constructor returns only on recognized keys. *)
Lemma construct_returns kw a :
  config.construct cls fields build kw = Ok a -> recognized fields kw.
Proof.
  unfold config.construct.
  destruct (forallb _ kw) eqn:Hs; [| discriminate].
  destruct (config.unexpected fields kw) eqn:Hu; [discriminate |]. intros _.
  induction kw as [| [k v] kw IH]; intros k' v' Hin; [inversion Hin |].
  simpl in Hs, Hu. apply andb_true_iff in Hs as [Hk Hs].
  destruct k as [| | | | ks]; try discriminate Hk.
  destruct (existsb _ fields) eqn:E; [| discriminate Hu].
  apply elem_of_cons in Hin as [Heq | Hin].
  - injection Heq as -> ->. apply existsb_exists in E as (f & Hf & Hd).
    exists f. split; [apply list_elem_of_In, Hf |].
    apply bool_decide_eq_true_1 in Hd. rewrite Hd. reflexivity.
  - apply (IH Hs Hu k' v' Hin).
Qed.

Lemma section_returns data name a :
  config.section (config.construct cls fields build) data name = Ok a ->
  valid_section data name fields.
Proof.
  unfold config.section, valid_section.
  destruct (config.get _ data) as [[v | n | kw] |]; try discriminate.
  - apply construct_returns.
  - intros _. exact I.
Qed.

Lemma section_empty data name :
  config.get (VStr (u name)) data = None
  \/ config.get (VStr (u name)) data = Some (config.Mapping []) ->
  config.section (config.construct cls fields build) data name = Ok (build []).
Proof. unfold config.section. intros [-> | ->]; reflexivity. Qed.

Lemma section_not_a_mapping data name :
  match config.get (VStr (u name)) data with
  | Some (config.Scalar _) | Some (config.Sequence _) => True
  | _ => False
  end ->
  config.section (config.construct cls fields build) data name
  = Raise (TypeError NotAMapping).
Proof.
  unfold config.section.
  destruct (config.get _ data) as [[v | n | kw] |]; intros []; reflexivity.
Qed.

End Constructors.

(** Looking a key up in a mapping with one more entry under another key. *)
Lemma get_insert_other {A : Type} k k' (n : A) d1 d2 :
  k <> k' ->
  config.get k (d1 ++ (k', n) :: d2) = config.get k (d1 ++ d2).
Proof.
  intros Hne. induction d1 as [| [k0 v0] d1 IH]; simpl.
  - destruct (decide (k = k')); [contradiction | reflexivity].
  - rewrite IH. reflexivity.
Qed.

(** [load_config] returns from the loadable sources and from no other: no
    file, a document that is false, or a mapping whose three sections are
    each absent or a mapping of recognized keys. *)
Theorem load_config_returns_iff_loadable src :
  (exists cfg, config.load_config src = Ok cfg) <-> loadable src.
Proof.
  split.
  - intros [cfg H]. destruct src as [| e0 | [v | n | d]]; simpl in *.
    + exact I.
    + discriminate H.
    + destruct (truthy v); [discriminate H | reflexivity].
    + destruct n; [reflexivity | discriminate H].
    + unfold config.ServerConfig_init, config.WhisperConfig_init,
        config.VADConfig_init in H.
      destruct (config.section _ d "server") as [s |] eqn:Es; [| discriminate H].
      destruct (config.section _ d "whisper") as [x |] eqn:Ew; [| discriminate H].
      destruct (config.section _ d "vad") as [y |] eqn:Ev; [| discriminate H].
      repeat split; eapply section_returns; eassumption.
  - destruct src as [| e0 | [v | n | d]]; simpl.
    + eauto.
    + intros [].
    + intros ->. eauto.
    + intros ->. eauto.
    + intros (Hs & Hw & Hv).
      unfold config.ServerConfig_init, config.WhisperConfig_init,
        config.VADConfig_init.
      rewrite (section_valid _ _ _ _ _ Hs), (section_valid _ _ _ _ _ Hw),
        (section_valid _ _ _ _ _ Hv). eauto.
Qed.

(** A file that states nothing loads as the default configuration: an
    empty file, a document that is false (0, false, an empty string, list
    or mapping), or a mapping in which each of the three sections is
    absent or empty, whatever other keys it has. *)
Theorem load_config_defaults doc :
  states_nothing doc ->
  config.load_config (config.Loaded doc) = Ok config.Config_default.
Proof.
  destruct doc as [v | n | d]; simpl.
  - intros ->. reflexivity.
  - intros ->. reflexivity.
  - intros H.
    apply Forall_cons in H as [Hs H]. apply Forall_cons in H as [Hw H].
    apply Forall_cons in H as [Hv _].
    unfold config.ServerConfig_init, config.WhisperConfig_init,
      config.VADConfig_init.
    rewrite (section_empty _ _ _ _ _ Hs), (section_empty _ _ _ _ _ Hw),
      (section_empty _ _ _ _ _ Hv). reflexivity.
Qed.

(** What [load_config] raises on a file that was read and parsed tells
    what was wrong with the document: [AttributeError] when it is true
    and no mapping (it has no [get]), and [TypeError], from the
    construction of a section, when it is a mapping; nothing else is
    raised on a parsed document. *)
Theorem load_config_raises doc e :
  config.load_config (config.Loaded doc) = Raise e ->
  (truthy_non_mapping doc /\ e = AttributeError (u "get"))
  \/ (exists d why, doc = config.DocMapping d /\ e = TypeError why).
Proof.
  destruct doc as [v | n | d]; simpl; intros H.
  - destruct (truthy v) eqn:E; [| discriminate H].
    injection H as <-. left. split; reflexivity.
  - destruct n; [discriminate H |].
    injection H as <-. left. split; [discriminate | reflexivity].
  - right. exists d.
    unfold config.ServerConfig_init, config.WhisperConfig_init,
      config.VADConfig_init in H.
    destruct (config.section _ d "server") as [s | e1] eqn:Es.
    2: { injection H as <-. apply section_raises in Es as [why ->]. eauto. }
    destruct (config.section _ d "whisper") as [x | e2] eqn:Ew.
    2: { injection H as <-. apply section_raises in Ew as [why ->]. eauto. }
    destruct (config.section _ d "vad") as [y | e3] eqn:Ev.
    2: { injection H as <-. apply section_raises in Ev as [why ->]. eauto. }
    discriminate H.
Qed.

(** A section that is present and no mapping (null, a scalar, a list)
    makes [load_config] raise a [TypeError]. *)
Theorem load_config_section_not_a_mapping d name fields :
  (name, fields) ∈ section_classes ->
  match config.get (VStr (u name)) d with
  | Some (config.Scalar _) | Some (config.Sequence _) => True
  | _ => False
  end ->
  exists why,
    config.load_config (config.Loaded (config.DocMapping d))
    = Raise (TypeError why).
Proof.
  intros Hcls Hget.
  unfold config.load_config, config.sections,
    config.ServerConfig_init, config.WhisperConfig_init, config.VADConfig_init.
  unfold section_classes in Hcls.
  repeat (apply elem_of_cons in Hcls as [Hcls | Hcls]);
    [injection Hcls as -> -> .. | inversion Hcls].
  - rewrite (section_not_a_mapping _ _ _ _ _ Hget). eauto.
  - destruct (config.section (config.construct "ServerConfig" _ _) d "server")
      as [s | e] eqn:Es; [| apply section_raises in Es as [why ->]; eauto].
    rewrite (section_not_a_mapping _ _ _ _ _ Hget). eauto.
  - destruct (config.section (config.construct "ServerConfig" _ _) d "server")
      as [s | e] eqn:Es; [| apply section_raises in Es as [why ->]; eauto].
    destruct (config.section (config.construct "WhisperConfig" _ _) d "whisper")
      as [s' | e] eqn:Ew; [| apply section_raises in Ew as [why ->]; eauto].
    rewrite (section_not_a_mapping _ _ _ _ _ Hget). eauto.
Qed.

(** A top-level key other than the three sections is passed over: with or
    without it, wherever it stands, the file loads alike. *)
Theorem load_config_ignores_other_keys d1 d2 k n :
  k <> VStr (u "server") -> k <> VStr (u "whisper") -> k <> VStr (u "vad") ->
  config.load_config (config.Loaded (config.DocMapping (d1 ++ (k, n) :: d2)))
  = config.load_config (config.Loaded (config.DocMapping (d1 ++ d2))).
Proof.
  intros Hs Hw Hv. unfold config.load_config, config.sections, config.section.
  rewrite !get_insert_other by congruence. reflexivity.
Qed.

(* ===================================================================== *)
(** * Further properties of [transcribe] and [transcribe_file] *)
(* ===================================================================== *)

Section TranscribeMore.

Variable h : Host.
Variable self : transcription.Transcriber.
Variable audio_data : list Byte.byte.

Local Abbreviation default := (config.language (transcription.config self)).

(** The first argument that is no string, when the language is none. *)
Lemma argv_language_not_a_string language t :
  (forall s, language <> VStr s) ->
  argv 0 (transcription.command self language t) = inl 4%nat.
Proof.
  intros Hl. unfold transcription.command.
  destruct (truthy _); simpl;
    destruct language; try reflexivity; destruct (Hl s eq_refl).
Qed.

(** On a host whose temporary names are fresh and whose child leaves the
    disk as it finds it, a call leaves the disk as it found it, however
    it ends. *)
Theorem transcribe_restores_disk language w :
  files w !! temp_path h w = None ->
  (forall args d e,
     launch h args (files (written h audio_data w)) = Ok (d, e) ->
     d = files (written h audio_data w)) ->
  files (fst (transcription.transcribe h self audio_data language w)) = files w.
Proof.
  intros Hfresh Hkeep. rewrite transcribe_steps. cbv zeta.
  destruct (subprocess_run h _ 60 (written h audio_data w)) as [w2 r] eqn:E.
  assert (Hw2 : files w2 = files (written h audio_data w)).
  { apply subprocess_run_world in E
      as [[-> _] | (args & d & e & _ & Hl & -> & _)]; [reflexivity |].
    simpl. apply (Hkeep _ _ _ Hl). }
  simpl. rewrite Hw2. simpl.
  rewrite delete_insert_eq. apply delete_id, Hfresh.
Qed.

(** When neither the caller nor the configuration gives a string for the
    language, the call raises [TypeError] without starting a child; the
    temporary file is written and unlinked all the same. *)
Theorem transcribe_language_not_a_string language w :
  (forall s, py_or language default <> VStr s) ->
  let t := temp_path h w in
  transcription.transcribe h self audio_data language w
  = ({| files := delete t (<[t := audio_data]> (files w));
        events := events w ++ [Created t; Unlinked t] |},
     Raise (TypeError (BadArgument 4))).
Proof.
  intros Hl t. rewrite transcribe_steps. cbv zeta. fold t.
  unfold subprocess_run. rewrite (argv_language_not_a_string _ _ Hl).
  unfold raise, written. fold t. simpl. rewrite <- app_assoc. reflexivity.
Qed.

(** When the child cannot be started, the call raises what the start
    raised, having unlinked the temporary file; the history shows no
    child. *)
Theorem transcribe_child_not_started language w args e :
  transcription.command self (py_or language default) (temp_path h w)
    = map VStr args ->
  launch h args (files (written h audio_data w)) = Raise e ->
  let t := temp_path h w in
  transcription.transcribe h self audio_data language w
  = ({| files := delete t (<[t := audio_data]> (files w));
        events := events w ++ [Created t; Unlinked t] |},
     Raise e).
Proof.
  intros Hc Hl t. rewrite transcribe_steps. cbv zeta. fold t.
  unfold subprocess_run. fold t in Hc. rewrite Hc, argv_map_VStr, Hl.
  unfold written. fold t. simpl. rewrite <- app_assoc. reflexivity.
Qed.

(** A returned result has a text without white space at either end, the
    effective language, a duration of 0 and no segments. *)
Theorem transcribe_result_shape language w res :
  snd (transcription.transcribe h self audio_data language w) = Ok res ->
  ~ starts_with isspace (transcription.text res)
  /\ ~ starts_with isspace (rev (transcription.text res))
  /\ transcription.language res = py_or language default
  /\ transcription.duration_ms res = 0%Z
  /\ transcription.segments res = None.
Proof.
  rewrite transcribe_steps. cbv zeta.
  destruct (subprocess_run h _ 60 _) as [w2 [p | e]]; simpl; [| discriminate].
  unfold verdict. destruct (negb _); [discriminate |].
  intros H. injection H as <-. simpl.
  destruct (strip_spec (re.sub (isdecimal h) TIMESTAMP (strip (stdout p))))
    as (a & b & _ & _ & _ & H1 & H2).
  unfold clean_output. auto.
Qed.

(** The file that [transcribe_file] reads is still there afterwards, with
    its bytes, when the temporary name is another path and the child
    leaves the disk as it finds it. *)
Theorem transcribe_file_keeps_its_input file_path language w data :
  files w !! file_path = Some data ->
  temp_path h w <> file_path ->
  (forall args d e,
     launch h args (files (written h data w)) = Ok (d, e) ->
     d = files (written h data w)) ->
  files (fst (transcription.transcribe_file h self file_path language w))
    !! file_path = Some data.
Proof.
  intros Hin Hne Hkeep.
  unfold transcription.transcribe_file, transcription.read_file, bind.
  rewrite Hin.
  pose proof (transcribe_steps h self data language w) as Hs. cbv zeta in Hs.
  rewrite Hs. clear Hs.
  destruct (subprocess_run h _ 60 (written h data w)) as [w2 r] eqn:E.
  assert (Hw2 : files w2 = files (written h data w)).
  { apply subprocess_run_world in E
      as [[-> _] | (args & d & e & _ & Hl & -> & _)]; [reflexivity |].
    simpl. apply (Hkeep _ _ _ Hl). }
  simpl. rewrite Hw2. simpl.
  rewrite lookup_delete_ne, lookup_insert_ne by assumption. exact Hin.
Qed.

End TranscribeMore.

(* ===================================================================== *)
(** * Further properties of the cleaning *)
(* ===================================================================== *)

Lemma lstrip_id t : ~ starts_with isspace t -> lstrip t = t.
Proof.
  destruct t as [| c t]; simpl; [reflexivity |].
  destruct (isspace c); [intros H; destruct (H eq_refl) | reflexivity].
Qed.

(** Trimming what is trimmed changes nothing. *)
Lemma strip_strip s : strip (strip s) = strip s.
Proof.
  destruct (strip_spec s) as (_ & _ & _ & _ & _ & H1 & H2).
  unfold strip at 1, rstrip. rewrite (lstrip_id _ H1), (lstrip_id _ H2).
  apply rev_involutive.
Qed.

Lemma strip_sublist s : sublist (strip s) s.
Proof.
  destruct (strip_spec s) as (a & b & Heq & _).
  rewrite Heq at 2. apply sublist_inserts_l, sublist_inserts_r. reflexivity.
Qed.

Section CleaningMore.

Variable isdecimal : N -> bool.

Lemma TIMESTAMP_wants_bracket c s :
  c <> LBRACKET -> re.match_here isdecimal TIMESTAMP (c :: s) = None.
Proof.
  intros Hc.
  destruct (re.match_here isdecimal TIMESTAMP (c :: s)) as [r |] eqn:E;
    [| reflexivity].
  unfold TIMESTAMP in E.
  apply match_One in E as (c0 & s0 & Heq & Hc0 & _).
  injection Heq as <- <-. apply accepts_Lit in Hc0. contradiction.
Qed.

Lemma sub_from_no_bracket n : forall s,
  Forall (fun c => c <> LBRACKET) s ->
  re.sub_from (re.match_here isdecimal TIMESTAMP) n s = s.
Proof.
  induction n as [| n IH]; intros s Hs; cbn [re.sub_from]; [reflexivity |].
  destruct Hs as [| c s Hc Hs]; [reflexivity |].
  rewrite (TIMESTAMP_wants_bracket c s Hc), (IH s Hs). reflexivity.
Qed.

Lemma sub_from_sublist n : forall s,
  sublist (re.sub_from (re.match_here isdecimal TIMESTAMP) n s) s.
Proof.
  induction n as [| n IH]; intros s; cbn [re.sub_from]; [reflexivity |].
  destruct s as [| c s]; [reflexivity |].
  destruct (re.match_here isdecimal TIMESTAMP (c :: s)) as [r |] eqn:E.
  - destruct (match_here_rest _ _ _ _ E) as [m ->].
    apply sublist_inserts_l, IH.
  - apply sublist_skip, IH.
Qed.

(** An output without an opening bracket is trimmed and nothing else. *)
Theorem clean_output_without_bracket s :
  Forall (fun c => c <> LBRACKET) s ->
  clean_output isdecimal s = strip s.
Proof.
  intros Hs. unfold clean_output, re.sub.
  rewrite sub_from_no_bracket by (apply strip_Forall, Hs).
  apply strip_strip.
Qed.

(** The cleaned text is the output with characters taken out: none is
    added, changed or moved, and the text has no white space at either
    end. *)
Theorem clean_output_sublist s :
  sublist (clean_output isdecimal s) s
  /\ (length (clean_output isdecimal s) <= length s)%nat
  /\ ~ starts_with isspace (clean_output isdecimal s)
  /\ ~ starts_with isspace (rev (clean_output isdecimal s)).
Proof.
  assert (H : sublist (clean_output isdecimal s) s).
  { unfold clean_output, re.sub.
    etransitivity; [apply strip_sublist |].
    etransitivity; [apply sub_from_sublist | apply strip_sublist]. }
  split; [exact H |]. split; [apply sublist_length, H |].
  unfold clean_output.
  destruct (strip_spec (re.sub isdecimal TIMESTAMP (strip s)))
    as (_ & _ & _ & _ & _ & H1 & H2). auto.
Qed.

Hypothesis table : decimal_table isdecimal.

Lemma markup_starts_with_bracket m :
  markup isdecimal m -> exists m', m = LBRACKET :: m'.
Proof. intros []. simpl. eauto. Qed.

(** Text without a bracket stays where it is. *)
Lemma removes_keep_text t : forall rest out,
  Forall (fun c => c <> LBRACKET) t ->
  removes_markup isdecimal rest out ->
  removes_markup isdecimal (t ++ rest) (t ++ out).
Proof.
  induction t as [| c t IH]; intros rest out Ht Hr; simpl; [exact Hr |].
  apply Forall_cons in Ht as [Hc Ht].
  apply removes_keep; [| apply IH; assumption].
  intros m rest' Hm Heq.
  apply markup_starts_with_bracket in Hm as [m' ->].
  injection Heq as -> _. contradiction.
Qed.

Lemma stamped_no_space segments :
  Forall (fun seg => markup isdecimal (fst seg)) segments ->
  ~ starts_with isspace (stamped segments).
Proof.
  destruct 1 as [| [m t] segments Hm _]; simpl; [intros [] |].
  simpl in Hm. apply markup_starts_with_bracket in Hm as [m' ->].
  simpl. discriminate.
Qed.

Lemma removes_markup_stamped segments :
  Forall (fun seg => markup isdecimal (fst seg)
                     /\ Forall (fun c => c <> LBRACKET) (snd seg)) segments ->
  removes_markup isdecimal (stamped segments) (texts segments).
Proof.
  induction 1 as [| [m t] segments [Hm Ht] Hsegs IH]; [constructor |].
  unfold stamped, texts in *. cbn [map concat fst snd] in *.
  destruct (lstrip_spec t) as (ws & Heq & Hws & Hhead).
  set (rest := concat (map (fun seg : list N * list N => seg.1 ++ seg.2) segments)) in *.
  set (out := concat (map (fun seg : list N * list N => lstrip seg.2) segments)) in *.
  replace ((m ++ t) ++ rest) with ((m ++ ws) ++ (lstrip t ++ rest))
    by (rewrite Heq at 2; rewrite <- !app_assoc; reflexivity).
  apply removes_drop.
  - apply markup_more_space; assumption.
  - destruct (lstrip t) as [| c t'] eqn:E; [| exact Hhead].
    simpl. apply (stamped_no_space segments).
    eapply Forall_impl; [exact Hsegs |]. intros seg [H0 _]. exact H0.
  - apply removes_keep_text; [apply lstrip_Forall, Ht | exact IH].
Qed.

(** The usual output, stamped segments one after the other with no
    bracket in their texts: the returned text is the texts put together,
    each without the white space it begins with, and trimmed. *)
Theorem clean_output_stamped segments out :
  Forall (fun seg => markup isdecimal (fst seg)
                     /\ Forall (fun c => c <> LBRACKET) (snd seg)) segments ->
  strip out = stamped segments ->
  clean_output isdecimal out = strip (texts segments).
Proof.
  intros Hsegs Hout. unfold clean_output. rewrite Hout. f_equal.
  symmetry. apply (removes_markup_unique isdecimal table).
  apply removes_markup_stamped, Hsegs.
Qed.

End CleaningMore.

(** The cleaning is one pass: what it returns can itself begin with
    markup, put together from the two sides of a stamp it took out, and
    cleaning twice then differs from cleaning once. *)
Theorem clean_output_can_leave_markup :
  ~ (forall isdecimal s,
       decimal_table isdecimal ->
       forall m rest, markup isdecimal m ->
                      clean_output isdecimal s <> m ++ rest)
  /\ ~ (forall isdecimal s,
          decimal_table isdecimal ->
          clean_output isdecimal (clean_output isdecimal s)
          = clean_output isdecimal s).
Proof.
  split.
  - intros H.
    apply (H ascii_digit nested_stamps ascii_digit_table
             ([LBRACKET] ++ u "1" ++ u " " ++ [MINUS; MINUS; GREATER] ++ []
              ++ u "4" ++ [RBRACKET] ++ []) []).
    + constructor; try discriminate; repeat constructor.
    + vm_compute. reflexivity.
  - intros H. specialize (H ascii_digit nested_stamps ascii_digit_table).
    vm_compute in H. discriminate H.
Qed.

(* ===================================================================== *)
(** * Further properties of the server *)
(* ===================================================================== *)

Section ServerMore.

Variable h : Host.

(** The endpoint raises nothing but [HTTPException]: every request gets
    an answer, 200 with the text and no detail, or 400, 500 or 503 with a
    detail and no text. *)
Theorem endpoint_always_answers g req w :
  exists resp,
    server.respond (snd (server.transcribe h g req w)) = Some resp
    /\ ((server.status_code resp = 200%Z
         /\ is_Some (server.text resp) /\ server.detail resp = None)
        \/ ((server.status_code resp = 400%Z
             \/ server.status_code resp = 500%Z
             \/ server.status_code resp = 503%Z)
            /\ server.text resp = None /\ is_Some (server.detail resp))).
Proof.
  unfold server.transcribe.
  destruct (server.transcriber g) as [t |].
  - destruct (length (server.file req) =? 0)%nat.
    + eexists. split; [reflexivity |]. right. simpl. eauto 6.
    + destruct (transcription.transcribe h t (server.file req)
                  (server.language req) w) as [w2 [res | e]].
      * eexists. split; [reflexivity |]. left. simpl. eauto.
      * destruct e; eexists; (split; [reflexivity |]); right; simpl; eauto 6.
  - eexists. split; [reflexivity |]. right. simpl. eauto 6.
Qed.

(** A request that is turned away, with 503 or with 400, has touched
    nothing: no file was written and no child was started. *)
Theorem endpoint_rejection_touches_nothing g req w resp :
  server.respond (snd (server.transcribe h g req w)) = Some resp ->
  server.status_code resp = 503%Z \/ server.status_code resp = 400%Z ->
  fst (server.transcribe h g req w) = w.
Proof.
  unfold server.transcribe.
  destruct (server.transcriber g) as [t |]; [| reflexivity].
  destruct (length (server.file req) =? 0)%nat; [reflexivity |].
  destruct (transcription.transcribe h t (server.file req)
              (server.language req) w) as [w2 [res | e]]; simpl.
  - intros H. injection H as <-. simpl. intros [? | ?]; discriminate.
  - destruct e; simpl; intros H; injection H as <-; simpl;
      intros [? | ?]; discriminate.
Qed.

(** What the engine says reaches the client: a child that ends in time
    with status 0 gives 200 and the cleaned output as the text; one that
    ends with another status gives 500 and, as the detail, the message
    that holds its standard error. *)
Theorem endpoint_relays_the_engine g req w self args d ms rc out err :
  server.transcriber g = Some self ->
  server.file req <> [] ->
  transcription.command self
    (py_or (server.language req)
       (config.language (transcription.config self))) (temp_path h w)
    = map VStr args ->
  launch h args (files (written h (server.file req) w))
    = Ok (d, Exits ms rc out err) ->
  (Z.of_N ms <= 60000)%Z ->
  server.respond (snd (server.transcribe h g req w))
  = Some (if (rc =? 0)%Z
          then {| server.status_code := 200;
                  server.text := Some (clean_output (isdecimal h) out);
                  server.detail := None |}
          else {| server.status_code := 500;
                  server.text := None;
                  server.detail := Some (u "whisper-cli failed: " ++ err) |}).
Proof.
  intros Hg Hne Hc Hl Hms. unfold server.transcribe. rewrite Hg.
  assert (Hlen : (length (server.file req) =? 0)%nat = false)
    by (destruct (server.file req); [contradiction | reflexivity]).
  rewrite Hlen, (transcribe_launched _ _ _ _ _ _ _ _ Hc Hl).
  apply Z.leb_le in Hms. rewrite Hms. unfold verdict. simpl.
  destruct (rc =? 0)%Z; reflexivity.
Qed.

(** A start-up that finds a loadable configuration, a string for the
    model path and the model on the disk sets both globals and touches
    nothing; from then on [health] reports the model as loaded and the
    configured voice-activity setting, and no request is answered 503. *)
Theorem lifespan_starts src g w cfg p :
  config.load_config src = Ok cfg ->
  config.model_path (config.whisper cfg) = VStr p ->
  is_Some (files w !! resolve h (files w) (joinpath h (project_root h) p)) ->
  exists g',
    server.lifespan h src g w = (w, (g', Ok ()))
    /\ server.transcriber g'
       = Some {| transcription.model_path :=
                   resolve h (files w) (joinpath h (project_root h) p);
                 transcription.config := config.whisper cfg;
                 transcription.vad_config := config.vad cfg |}
    /\ server.config g' = Some cfg
    /\ server.model_loaded (server.health g') = true
    /\ server.vad_enabled (server.health g') = config.enabled (config.vad cfg)
    /\ forall req w2 d,
         snd (server.transcribe h g' req w2) <> Raise (HTTPException 503 d).
Proof.
  intros Hload Hp [b Hb]. eexists. split; [| split; [| split; [| split; [| split]]]].
  - unfold server.lifespan. rewrite Hload, Hp.
    rewrite Transcriber_init_cases. cbv zeta. rewrite Hb. reflexivity.
  - reflexivity.
  - reflexivity.
  - reflexivity.
  - reflexivity.
  - intros req w2 d. unfold server.transcribe. simpl.
    destruct (length (server.file req) =? 0)%nat; [discriminate |].
    destruct (transcription.transcribe h _ (server.file req)
                (server.language req) w2) as [w3 [res | e]]; [discriminate |].
    destruct e; discriminate.
Qed.

(** A start-up that raises has touched nothing and has left the
    transcriber as it was; and a start-up never touches the disk or
    starts a child. *)
Theorem lifespan_failure_sets_no_transcriber src g w :
  fst (server.lifespan h src g w) = w
  /\ forall e,
       snd (snd (server.lifespan h src g w)) = Raise e ->
       server.transcriber (fst (snd (server.lifespan h src g w)))
       = server.transcriber g.
Proof.
  unfold server.lifespan.
  destruct (config.load_config src) as [cfg | e0]; [| split; reflexivity].
  destruct (config.model_path (config.whisper cfg));
    try (split; reflexivity).
  rewrite Transcriber_init_cases. cbv zeta.
  destruct (files w !! _); simpl; split; try reflexivity.
  intros e H. discriminate H.
Qed.

(** [health] and the endpoint agree: the model is reported as not loaded
    exactly when every request is answered 503. *)
Theorem health_tells_availability g :
  server.status (server.health g) = u "healthy"
  /\ (server.model_loaded (server.health g) = false
      <-> forall req w,
            server.transcribe h g req w
            = (w, Raise (HTTPException 503 (u "Model not loaded")))).
Proof.
  split; [reflexivity |]. unfold server.health. simpl. split.
  - intros H req w. apply transcribe_unavailable.
    destruct (server.transcriber g); [discriminate H | reflexivity].
  - intros H.
    specialize (H {| server.file := []; server.language := VNone |}
                  {| files := ∅; events := [] |}).
    unfold server.transcribe in H.
    destruct (server.transcriber g); [discriminate H | reflexivity].
Qed.

End ServerMore.

(* ===================================================================== *)
(** * Further runs on a fake host *)
(* ===================================================================== *)

Lemma load_config_defaults_witness :
  config.load_config (config.Loaded other_keys_file) = Ok config.Config_default.
Proof.
  apply (load_config_defaults other_keys_file).
  repeat (apply Forall_cons_2 || apply Forall_nil_2);
    first [left; reflexivity | right; reflexivity].
Defined.

Lemma load_config_raises_witness :
  (truthy_non_mapping (config.DocScalar (VStr (u "hello")))
   /\ AttributeError (u "get") = AttributeError (u "get"))
  \/ (exists d why,
        config.DocScalar (VStr (u "hello")) = config.DocMapping d
        /\ AttributeError (u "get") = TypeError why).
Proof.
  apply (load_config_raises (config.DocScalar (VStr (u "hello")))
           (AttributeError (u "get"))).
  reflexivity.
Defined.

Lemma load_config_null_section_witness :
  exists why,
    config.load_config (config.Loaded (config.DocMapping null_section_file))
    = Raise (TypeError why).
Proof.
  apply (load_config_section_not_a_mapping null_section_file
           "vad" config.VADConfig_fields).
  - right. right. left.
  - exact I.
Defined.

Lemma load_config_other_keys_witness :
  config.load_config
    (config.Loaded (config.DocMapping
       ([] ++ (VStr (u "logging"), config.Scalar (VInt 1))
           :: [(VStr (u "server"),
                config.Mapping [(VStr (u "port"), VInt 9000)])])))
  = config.load_config
      (config.Loaded (config.DocMapping
         ([] ++ [(VStr (u "server"),
                  config.Mapping [(VStr (u "port"), VInt 9000)])]))).
Proof.
  apply (load_config_ignores_other_keys [] _ (VStr (u "logging")));
    vm_compute; discriminate.
Defined.

Lemma transcribe_restores_disk_witness :
  files (fst (transcription.transcribe
                (fake_host (ends_with (Exits 900 3 [] (u "error: bad model"))))
                default_transcriber some_audio VNone fresh_world))
  = files fresh_world.
Proof.
  apply (transcribe_restores_disk
           (fake_host (ends_with (Exits 900 3 [] (u "error: bad model"))))
           default_transcriber some_audio VNone fresh_world).
  - vm_compute. reflexivity.
  - intros args d e H. injection H as <- _. reflexivity.
Defined.

Lemma transcribe_language_witness :
  transcription.transcribe (fake_host not_installed)
    unset_language_transcriber some_audio (VStr []) fresh_world
  = ({| files := delete fake_temp (<[fake_temp := some_audio]> (files fresh_world));
        events := events fresh_world ++ [Created fake_temp; Unlinked fake_temp] |},
     Raise (TypeError (BadArgument 4))).
Proof.
  apply (transcribe_language_not_a_string (fake_host not_installed)
           unset_language_transcriber some_audio (VStr []) fresh_world).
  intros s. discriminate.
Defined.

Lemma transcribe_child_not_started_witness :
  transcription.transcribe (fake_host not_installed)
    default_transcriber some_audio VNone fresh_world
  = ({| files := delete fake_temp (<[fake_temp := some_audio]> (files fresh_world));
        events := events fresh_world ++ [Created fake_temp; Unlinked fake_temp] |},
     Raise (FileNotFoundError (u "whisper-cli"))).
Proof.
  apply (transcribe_child_not_started (fake_host not_installed)
           default_transcriber some_audio VNone fresh_world
           default_command_line (FileNotFoundError (u "whisper-cli")));
    reflexivity.
Defined.

Lemma transcribe_result_shape_witness :
  ~ starts_with isspace (u "Hello   world again")
  /\ ~ starts_with isspace (rev (u "Hello   world again"))
  /\ VStr (u "en") = py_or VNone (VStr (u "en"))
  /\ 0%Z = 0%Z
  /\ @None (list value) = None.
Proof.
  apply (transcribe_result_shape
           (fake_host (ends_with (Exits 900 0 stamped_output [])))
           default_transcriber some_audio VNone fresh_world
           {| transcription.text := u "Hello   world again";
              transcription.language := VStr (u "en");
              transcription.duration_ms := 0;
              transcription.segments := None |}).
  vm_compute. reflexivity.
Defined.

Lemma transcribe_file_keeps_its_input_witness :
  files (fst (transcription.transcribe_file
                (fake_host (ends_with (Exits 900 0 (u "ok") [])))
                default_transcriber model_file VNone fresh_world))
    !! model_file = Some [].
Proof.
  apply (transcribe_file_keeps_its_input
           (fake_host (ends_with (Exits 900 0 (u "ok") [])))
           default_transcriber model_file VNone fresh_world []).
  - reflexivity.
  - vm_compute. discriminate.
  - intros args d e H. injection H as <- _. reflexivity.
Defined.

Lemma clean_output_without_bracket_witness :
  clean_output ascii_digit (u "  hello   world ") = strip (u "  hello   world ").
Proof.
  apply (clean_output_without_bracket ascii_digit (u "  hello   world ")).
  vm_compute. repeat constructor; discriminate.
Defined.

Lemma clean_output_stamped_witness :
  clean_output ascii_digit (u " " ++ stamped two_lines ++ u " ")
  = strip (texts two_lines).
Proof.
  apply (clean_output_stamped ascii_digit ascii_digit_table two_lines).
  - repeat apply Forall_cons_2; [| | apply Forall_nil_2]; split.
    + exact (markup_intro ascii_digit (u "00:00:00.000") (u " ") (u " ")
               (u "00:00:02.500") []
               ltac:(discriminate) ltac:(discriminate)
               ltac:(repeat constructor) ltac:(repeat constructor)
               ltac:(repeat constructor) ltac:(repeat constructor)
               ltac:(repeat constructor)).
    + vm_compute. repeat constructor; discriminate.
    + exact (markup_intro ascii_digit (u "00:00:02.500") (u " ") (u " ")
               (u "00:00:04.000") []
               ltac:(discriminate) ltac:(discriminate)
               ltac:(repeat constructor) ltac:(repeat constructor)
               ltac:(repeat constructor) ltac:(repeat constructor)
               ltac:(repeat constructor)).
    + vm_compute. repeat constructor; discriminate.
  - vm_compute. reflexivity.
Defined.

Lemma endpoint_rejection_witness :
  fst (server.transcribe (fake_host not_installed) server.initial
         some_upload fresh_world) = fresh_world.
Proof.
  apply (endpoint_rejection_touches_nothing (fake_host not_installed)
           server.initial some_upload fresh_world
           {| server.status_code := 503; server.text := None;
              server.detail := Some (u "Model not loaded") |}).
  - reflexivity.
  - left. reflexivity.
Defined.

Lemma endpoint_relays_witness :
  server.respond
    (snd (server.transcribe
            (fake_host (ends_with (Exits 900 3 [] (u "error: bad model"))))
            started some_upload fresh_world))
  = Some {| server.status_code := 500;
            server.text := None;
            server.detail := Some (u "whisper-cli failed: " ++ u "error: bad model") |}.
Proof.
  apply (endpoint_relays_the_engine
           (fake_host (ends_with (Exits 900 3 [] (u "error: bad model"))))
           started some_upload fresh_world default_transcriber
           default_command_line
           (files (written (fake_host (ends_with (Exits 900 3 [] (u "error: bad model"))))
                     some_audio fresh_world))
           900 3 [] (u "error: bad model")).
  - reflexivity.
  - discriminate.
  - reflexivity.
  - reflexivity.
  - vm_compute. discriminate.
Defined.

Lemma lifespan_starts_witness :
  exists g',
    server.lifespan (fake_host not_installed) config.Missing server.initial
      fresh_world = (fresh_world, (g', Ok ()))
    /\ server.transcriber g' = Some default_transcriber
    /\ server.config g' = Some config.Config_default
    /\ server.model_loaded (server.health g') = true
    /\ server.vad_enabled (server.health g') = VBool true
    /\ forall req w2 d,
         snd (server.transcribe (fake_host not_installed) g' req w2)
         <> Raise (HTTPException 503 d).
Proof.
  apply (lifespan_starts (fake_host not_installed) config.Missing
           server.initial fresh_world config.Config_default
           (u "models/ggml-base.bin")).
  - reflexivity.
  - reflexivity.
  - vm_compute. eauto.
Defined.
